(** * Schema assembly of graphql-go-tools: [schema.go]

  A shallow embedding of [ExecutableSchema.Make] and
  [registry.buildSchemaFromAST] and the properties of the assembly
  they implement.

  The Go code threads one mutable [*registry] through every call and
  writes to standard output.  Both are modelled by explicit state
  passing: a run carries the registry and the chronological list of
  the effects it has performed (lines printed, and the calls made to
  the collaborators the properties speak about).

  Go functions that return [(value, error)] return a pair whose second
  component is [None] for a nil error; a pointer that may be nil is an
  [option]. *)

From Stdlib Require Import String List Bool.
Import ListNotations.
Open Scope string_scope.

(** Go's builtin [error]: a nil-able value carrying a message. *)
Definition error := string.

(** ** Default root type names ([schema.go], lines 12-17) *)

Definition DefaultRootQueryName := "Query".
Definition DefaultRootMutationName := "Mutation".
Definition DefaultRootSubscriptionName := "Subscription".

(** ** The parts of [graphql-go/language/ast] that the source reads *)

Module ast.

(** The operation keywords, as the [ast] package declares them. *)
Definition OperationTypeQuery := "query".
Definition OperationTypeMutation := "mutation".
Definition OperationTypeSubscription := "subscription".

Record Name := { Value : string }.
Record Named := { Name_ : Name }.

(** One [query: Foo] entry of a schema declaration; the source reads
    [op.Operation] and [op.Type.Name.Value]. *)
Record OperationTypeDefinition := {
  Operation : string;
  Type_ : Named
}.

(** A directive invocation [@name(arg: value, ...)]. *)
Record Directive := {
  DirectiveName : Name;
  Arguments : list (string * string)
}.

Record SchemaDefinition := {
  Directives : list Directive;
  OperationTypes : list OperationTypeDefinition
}.

(** A top-level definition of a document: the schema declaration, or
    any other type-system definition, whose syntax [D] only the
    registry's own resolution code looks into. *)
Inductive Node (D : Type) :=
| SchemaDefinitionNode (definition : SchemaDefinition)
| TypeSystemNode (definition : D).
Arguments SchemaDefinitionNode {D}.
Arguments TypeSystemNode {D}.

Record Document (D : Type) := { Definitions : list (Node D) }.
Arguments Definitions {D}.

End ast.

(** ** The parts of [graphql-go/graphql] that the source uses *)

Module graphql.

(** The runtime representations; they belong to the execution engine. *)
Class Runtime := {
  Object : Type;
  Type_ : Type;
  Directive : Type;
  Extension : Type;
  Schema : Type
}.

Record SchemaConfig `{Runtime} := {
  Query : option Object;
  Mutation : option Object;
  Subscription : option Object;
  Types : list Type_;
  Directives : list Directive;
  Extensions : list Extension
}.

(** [graphql.Schema{}] and [graphql.NewSchema].  [NewSchema] hands back
    a schema value together with the error, as Go does. *)
Class Engine `{Runtime} := {
  zeroSchema : Schema;
  NewSchema : SchemaConfig -> Schema * option error
}.

Definition withQuery `{Runtime} (cfg : SchemaConfig) (o : option Object) :=
  {| Query := o; Mutation := Mutation cfg; Subscription := Subscription cfg;
     Types := Types cfg; Directives := Directives cfg;
     Extensions := Extensions cfg |}.

Definition withMutation `{Runtime} (cfg : SchemaConfig) (o : option Object) :=
  {| Query := Query cfg; Mutation := o; Subscription := Subscription cfg;
     Types := Types cfg; Directives := Directives cfg;
     Extensions := Extensions cfg |}.

Definition withSubscription `{Runtime} (cfg : SchemaConfig) (o : option Object) :=
  {| Query := Query cfg; Mutation := Mutation cfg; Subscription := o;
     Types := Types cfg; Directives := Directives cfg;
     Extensions := Extensions cfg |}.

End graphql.

Import graphql.

(** ** Package [tools] *)

(** Types of the package that [schema.go] mentions and other files of
  the package declare. *)
Class Package := {
  Ctx : Type;                        (* context.Context *)
  Background : Ctx;                  (* context.Background() *)
  TypeDefsT : Type;                  (* interface{}: string, []string or func() []string *)
  ResolverMap : Type;                (* map[string]interface{} *)
  SchemaDirectiveVisitorMap : Type;
  DependencyMap : Type;
  Definition_ : Type;                (* syntax of the definitions other than schema *)
  Internals : Type                   (* the registry's tables *)
}.

Section Tools.

Context `{RT : Runtime} `{EN : !Engine} `{PK : Package}.

(** [ExecutableSchema] ([schema.go], lines 32-37). *)
Record ExecutableSchema := {
  TypeDefs : TypeDefsT;
  Resolvers : ResolverMap;
  SchemaDirectives : SchemaDirectiveVisitorMap;
  Extensions_ : list Extension
}.

(** The registry.  [schema.go] reads and writes the fields
    [dependencyMap], [schema] and [extensions]; [resolveDefinitions]
    takes no argument, so the document given to [newRegistry] is kept
    too.  Everything else is [internals]. *)
Record registry := {
  document : ast.Document Definition_;
  dependencyMap : DependencyMap;
  schema : option Schema;
  extensions : list Extension;
  internals : Internals
}.

Definition set_dependencyMap (c : registry) (m : DependencyMap) :=
  {| document := document c; dependencyMap := m; schema := schema c;
     extensions := extensions c; internals := internals c |}.

Definition set_schema (c : registry) (s : option Schema) :=
  {| document := document c; dependencyMap := dependencyMap c; schema := s;
     extensions := extensions c; internals := internals c |}.

(** The argument of [applyDirectives], at the one use [schema.go]
    makes of it: the target is the schema config, the host node the
    schema declaration. *)
Record applyDirectiveParams := {
  config : SchemaConfig;
  directives : list ast.Directive;
  node : ast.SchemaDefinition;
  allowThunks : bool
}.

(** The functions [schema.go] calls and other files define.  A method
    on [*registry] takes the registry and returns it as it leaves it.
    [applyDirectives] receives a pointer to the schema config, which
    the directive behaviours may update: it returns the config as they
    leave it. *)
Class Collaborators := {
  ConcatenateTypeDefs : ExecutableSchema -> ast.Document Definition_ * option error;
  newRegistry : Ctx -> ResolverMap -> SchemaDirectiveVisitorMap ->
                list Extension -> ast.Document Definition_ ->
                registry * option error;
  IdentifyDependencies : registry -> DependencyMap;
  resolveDefinition : Definition_ -> registry -> option error * registry;
  getObject : string -> registry -> (option Object * option error) * registry;
  typeArray : registry -> list Type_;
  directiveArray : registry -> list Directive;
  applyDirectives : applyDirectiveParams -> registry ->
                    (SchemaConfig * option error) * registry;
  (* json.MarshalIndent(v, prefix, indent) *)
  MarshalIndent : DependencyMap -> string -> string -> string * option error
}.

Context `{CO : Collaborators}.

(** *** Effects *)

Inductive Event :=
| Println (line : string)
| CallGetObject (name : string)
| CallApplyDirectives (p : applyDirectiveParams)
| CallNewSchema (cfg : SchemaConfig).

Record State := { reg : registry; events : list Event }.

Definition M (A : Type) := State -> A * State.

Definition ret {A} (a : A) : M A := fun s => (a, s).

Definition bind {A B} (m : M A) (k : A -> M B) : M B :=
  fun s => let (a, s') := m s in k a s'.

Definition emit (e : Event) : M unit :=
  fun s => (tt, {| reg := reg s; events := events s ++ [e] |}).

Definition getRegistry : M registry := fun s => (reg s, s).

Definition putRegistry (c : registry) : M unit :=
  fun s => (tt, {| reg := c; events := events s |}).

(** A method of the registry, run on the current registry. *)
Definition method {A} (f : registry -> A * registry) : M A :=
  fun s => let (a, c) := f (reg s) in (a, {| reg := c; events := events s |}).

End Tools.

Declare Scope go_scope.
Delimit Scope go_scope with go.
Notation "x <- m ;; k" := (bind m (fun x => k))
  (at level 100, m at next level, right associativity) : go_scope.
Notation "' p <- m ;; k" := (bind m (fun x => match x with p => k end))
  (at level 100, p pattern, m at next level, right associativity) : go_scope.
Notation "m ;; k" := (bind m (fun _ => k))
  (at level 100, right associativity) : go_scope.

Section Assembly.

Context `{RT : Runtime} `{EN : !Engine} `{PK : Package} `{CO : !Collaborators}.
Local Open Scope go_scope.

(** [c.getObject(name)] *)
Definition c_getObject (name : string) : M (option Object * option error) :=
  emit (CallGetObject name) ;; method (getObject name).

(** [c.applyDirectives(p)] *)
Definition c_applyDirectives (p : applyDirectiveParams)
  : M (SchemaConfig * option error) :=
  emit (CallApplyDirectives p) ;; method (applyDirectives p).

(** [graphql.NewSchema(cfg)] *)
Definition graphql_NewSchema (cfg : SchemaConfig) : M (Schema * option error) :=
  emit (CallNewSchema cfg) ;; ret (NewSchema cfg).

(** [fmt.Println(line)] *)
Definition fmt_Println (line : string) : M unit := emit (Println line).

(** *** [buildSchemaFromAST] ([schema.go], lines 95-144) *)

(** The body of the loop over [definition.OperationTypes] (lines
    104-123): the updated config and the error the body returns with,
    if it does. *)
Definition addOperation (op : ast.OperationTypeDefinition)
           (schemaConfig : SchemaConfig) : M (SchemaConfig * option error) :=
  let name := ast.Value (ast.Name_ (ast.Type_ op)) in
  if ast.Operation op =? ast.OperationTypeQuery then
    ' (object, err) <- c_getObject name ;;
    match err with
    | None => ret (withQuery schemaConfig object, None)
    | Some e => ret (schemaConfig, Some e)
    end
  else if ast.Operation op =? ast.OperationTypeMutation then
    ' (object, err) <- c_getObject name ;;
    match err with
    | None => ret (withMutation schemaConfig object, None)
    | Some e => ret (schemaConfig, Some e)
    end
  else if ast.Operation op =? ast.OperationTypeSubscription then
    ' (object, err) <- c_getObject name ;;
    match err with
    | None => ret (withSubscription schemaConfig object, None)
    | Some e => ret (schemaConfig, Some e)
    end
  else ret (schemaConfig, None).

(** The loop (lines 103-124); an error leaves it at once. *)
Fixpoint addOperations (ops : list ast.OperationTypeDefinition)
         (schemaConfig : SchemaConfig) : M (SchemaConfig * option error) :=
  match ops with
  | [] => ret (schemaConfig, None)
  | op :: rest =>
      ' (schemaConfig, err) <- addOperation op schemaConfig ;;
      match err with
      | None => addOperations rest schemaConfig
      | Some e => ret (schemaConfig, Some e)
      end
  end.

Definition buildSchemaFromAST (definition : ast.SchemaDefinition)
           (allowThunks : bool) : M (option error) :=
  c <- getRegistry ;;
  let schemaConfig :=
    {| Query := None; Mutation := None; Subscription := None;
       Types := typeArray c;
       Directives := directiveArray c;
       Extensions := extensions c |} in
  (* add operations *)
  ' (schemaConfig, err) <- addOperations (ast.OperationTypes definition) schemaConfig ;;
  match err with
  | Some e => ret (Some e)
  | None =>
    (* apply schema directives *)
    ' (schemaConfig, err) <- c_applyDirectives
        {| config := schemaConfig;
           directives := ast.Directives definition;
           node := definition;
           allowThunks := allowThunks |} ;;
    match err with
    | Some e => ret (Some e)
    | None =>
      (* build the schema *)
      ' (schema, err) <- graphql_NewSchema schemaConfig ;;
      match err with
      | Some e => ret (Some e)
      | None =>
        c <- getRegistry ;;
        putRegistry (set_schema c (Some schema)) ;;
        ret None
      end
    end
  end.

(** Modelled from the spec: [registry.resolveDefinitions], which
    [Make] calls and another file of the package defines.  Steps 3 and
    4 of the schema builder: every declaration of the document is
    resolved against the registry, then an explicit schema declaration
    is built by [buildSchemaFromAST] with [allowThunks = false]. *)
Fixpoint resolveTypeSystem (defs : list (ast.Node Definition_)) : M (option error) :=
  match defs with
  | [] => ret None
  | ast.TypeSystemNode d :: rest =>
      err <- method (resolveDefinition d) ;;
      match err with
      | Some e => ret (Some e)
      | None => resolveTypeSystem rest
      end
  | ast.SchemaDefinitionNode _ :: rest => resolveTypeSystem rest
  end.

Fixpoint resolveSchema (defs : list (ast.Node Definition_)) : M (option error) :=
  match defs with
  | [] => ret None
  | ast.SchemaDefinitionNode d :: rest =>
      err <- buildSchemaFromAST d false ;;
      match err with
      | Some e => ret (Some e)
      | None => resolveSchema rest
      end
  | ast.TypeSystemNode _ :: rest => resolveSchema rest
  end.

Definition resolveDefinitions : M (option error) :=
  c <- getRegistry ;;
  err <- resolveTypeSystem (ast.Definitions (document c)) ;;
  match err with
  | Some e => ret (Some e)
  | None => resolveSchema (ast.Definitions (document c))
  end.

(** *** [Make] ([schema.go], lines 40-92) *)

(** Lines 53-91: [Make] from the point where the registry exists. *)
Definition assemble (c : ExecutableSchema) : M (Schema * option error) :=
  registry <- getRegistry ;;
  putRegistry (set_dependencyMap registry (IdentifyDependencies registry)) ;;
  (* resolve the document definitions *)
  err <- resolveDefinitions ;;
  match err with
  | Some e => ret (zeroSchema, Some e)
  | None =>
    (* check if schema was created by definition *)
    registry <- getRegistry ;;
    match schema registry with
    | Some s => ret (s, None)
    | None =>
      (* otherwise build a schema from default object names *)
      ' (query, err) <- c_getObject DefaultRootQueryName ;;
      match err with
      | Some e => ret (zeroSchema, Some e)
      | None =>
        ' (mutation, _) <- c_getObject DefaultRootMutationName ;;
        ' (subscription, _) <- c_getObject DefaultRootSubscriptionName ;;
        (* create a new schema config *)
        registry <- getRegistry ;;
        let schemaConfig :=
          {| Query := query;
             Mutation := mutation;
             Subscription := subscription;
             Types := typeArray registry;
             Directives := directiveArray registry;
             Extensions := Extensions_ c |} in
        ' (schema, err) <- graphql_NewSchema schemaConfig ;;
        match err with
        | Some _ =>
            registry <- getRegistry ;;
            let (j, _) := MarshalIndent (dependencyMap registry) "" "  " in
            fmt_Println j
        | None => ret tt
        end ;;
        (* create a new schema *)
        ret (schema, None)
      end
    end
  end.

(** [Make], from the effects performed so far to the result and the
    effects performed when it returns. *)
Definition Make (c : ExecutableSchema) (ctx : Ctx) (out : list Event)
  : (Schema * option error) * list Event :=
  (* combine the TypeDefs *)
  let (document, err) := ConcatenateTypeDefs c in
  match err with
  | Some e => ((zeroSchema, Some e), out)
  | None =>
    (* create a new registry *)
    let (registry, err) :=
      newRegistry ctx (Resolvers c) (SchemaDirectives c) (Extensions_ c) document in
    match err with
    | Some e => ((zeroSchema, Some e), out)
    | None =>
      let (result, s) := assemble c {| reg := registry; events := out |} in
      (result, events s)
    end
  end.

(** Lines 19-27. *)
Definition MakeExecutableSchema (config : ExecutableSchema) :=
  Make config Background.

Definition MakeExecutableSchemaWithContext (ctx : Ctx) (config : ExecutableSchema) :=
  Make config ctx.

End Assembly.

(** ** Vocabulary of the properties *)

Section Observations.

Context `{RT : Runtime} `{EN : !Engine} `{PK : Package} `{CO : !Collaborators}.
Local Open Scope list_scope.

(** The lines a run has printed, oldest first. *)
Fixpoint printed (evs : list Event) : list string :=
  match evs with
  | [] => []
  | Println line :: rest => line :: printed rest
  | _ :: rest => printed rest
  end.

Definition silent (e : Event) : Prop :=
  match e with Println _ => False | _ => True end.

Definition isLookup (e : Event) : Prop :=
  match e with CallGetObject _ => True | _ => False end.

(** Directive application, when this effect is one, is told [flag]. *)
Definition thunksAre (flag : bool) (e : Event) : Prop :=
  match e with CallApplyDirectives p => allowThunks p = flag | _ => True end.

(** Every effect that action [m] adds satisfies [Q]. *)
Definition only {A} (Q : Event -> Prop) (m : M A) : Prop :=
  forall s, exists new, events (snd (m s)) = events s ++ new /\ Forall Q new.

(** The three roots of a schema and the keyword that declares each. *)
Inductive Root := QueryRoot | MutationRoot | SubscriptionRoot.

Definition rootOf (op : ast.OperationTypeDefinition) : option Root :=
  if ast.Operation op =? "query" then Some QueryRoot
  else if ast.Operation op =? "mutation" then Some MutationRoot
  else if ast.Operation op =? "subscription" then Some SubscriptionRoot
  else None.

Definition setRoot (k : Root) (cfg : SchemaConfig) (o : option Object) : SchemaConfig :=
  match k with
  | QueryRoot => withQuery cfg o
  | MutationRoot => withMutation cfg o
  | SubscriptionRoot => withSubscription cfg o
  end.

Definition typeName (op : ast.OperationTypeDefinition) : string :=
  ast.Value (ast.Name_ (ast.Type_ op)).

(** The config [buildSchemaFromAST] starts from (lines 96-100). *)
Definition schemaConfigOf (c : registry) : SchemaConfig :=
  {| Query := None; Mutation := None; Subscription := None;
     Types := typeArray c; Directives := directiveArray c;
     Extensions := extensions c |}.

(** What [buildSchemaFromAST] hands to directive application (lines
    127-132). *)
Definition schemaDirectives (cfg : SchemaConfig) (definition : ast.SchemaDefinition)
           (flag : bool) : applyDirectiveParams :=
  {| config := cfg; directives := ast.Directives definition;
     node := definition; allowThunks := flag |}.

(** The schema declarations of a document, in order. *)
Fixpoint schemaDefinitions (defs : list (ast.Node Definition_))
  : list ast.SchemaDefinition :=
  match defs with
  | [] => []
  | ast.SchemaDefinitionNode d :: rest => d :: schemaDefinitions rest
  | ast.TypeSystemNode _ :: rest => schemaDefinitions rest
  end.

(** The registry [Make] works on, when lines 41-51 succeed; its
    dependency map is set as line 53 does. *)
Definition registryOf (c : ExecutableSchema) (ctx : Ctx) : option registry :=
  match ConcatenateTypeDefs c with
  | (_, Some _) => None
  | (doc, None) =>
      match newRegistry ctx (Resolvers c) (SchemaDirectives c) (Extensions_ c) doc with
      | (_, Some _) => None
      | (r, None) => Some (set_dependencyMap r (IdentifyDependencies r))
      end
  end.

(** The state in which [Make] reaches line 60, when every step before
    it succeeds. *)
Definition resolved (c : ExecutableSchema) (ctx : Ctx) (out : list Event)
  : option State :=
  match registryOf c ctx with
  | None => None
  | Some r =>
      match resolveDefinitions {| reg := r; events := out |} with
      | (Some _, _) => None
      | (None, s) => Some s
      end
  end.

(** The registry after the three lookups of the default root names
    (lines 66-72), started on registry [c]. *)
Definition afterQuery (c : registry) := snd (getObject DefaultRootQueryName c).
Definition afterMutation (c : registry) :=
  snd (getObject DefaultRootMutationName (afterQuery c)).
Definition afterSubscription (c : registry) :=
  snd (getObject DefaultRootSubscriptionName (afterMutation c)).

(** The config of lines 75-82. *)
Definition inferredConfig (c : ExecutableSchema) (r : registry) : SchemaConfig :=
  {| Query := fst (fst (getObject DefaultRootQueryName r));
     Mutation := fst (fst (getObject DefaultRootMutationName (afterQuery r)));
     Subscription := fst (fst (getObject DefaultRootSubscriptionName (afterMutation r)));
     Types := typeArray (afterSubscription r);
     Directives := directiveArray (afterSubscription r);
     Extensions := Extensions_ c |}.

(** The line printed when the schema of lines 75-84 is refused. *)
Definition dump (r : registry) : string :=
  fst (MarshalIndent (dependencyMap (afterSubscription r)) "" "  ").

(** "The dependency map is printed exactly when final schema
    construction fails", read on the effects of a run. *)
Definition dumpsExactlyOnFailure (new : list Event) : Prop :=
  (exists line, In (Println line) new) <->
  (exists cfg, In (CallNewSchema cfg) new /\ snd (NewSchema cfg) <> None).

End Observations.

(** ** A small concrete world

    An engine and a registry small enough to run: every type is an
    object type, known by its name and by whether it provides the
    fields of the interfaces it implements; the registry's table is the
    list of the types resolved so far.  [NewSchema] rejects a config
    without a query root and a config holding a type that breaks an
    interface, as [graphql.NewSchema] does. *)

Module Sample.

Record schema_t := {
  queryRoot : option string;
  mutationRoot : option string;
  subscriptionRoot : option string;
  typeNames : list string
}.

#[export] Instance runtime : Runtime := {|
  Object := string;
  graphql.Type_ := string * bool;
  graphql.Directive := string;
  Extension := string;
  Schema := schema_t
|}.

Definition newSchema (cfg : SchemaConfig) : Schema * option error :=
  match Query cfg with
  | None =>
      ({| queryRoot := None; mutationRoot := None; subscriptionRoot := None;
          typeNames := [] |},
       Some "Schema query must be Object Type but got: nil.")
  | Some q =>
      if forallb snd (Types cfg)
      then ({| queryRoot := Some q; mutationRoot := Mutation cfg;
               subscriptionRoot := Subscription cfg;
               typeNames := map fst (Types cfg) |}, None)
      else ({| queryRoot := Some q; mutationRoot := Mutation cfg;
               subscriptionRoot := Subscription cfg; typeNames := [] |},
            Some "an object type does not provide a field its interface expects")
  end.

#[export] Instance engine : Engine := {|
  zeroSchema := {| queryRoot := None; mutationRoot := None;
                   subscriptionRoot := None; typeNames := [] |};
  NewSchema := newSchema
|}.

(** Type definitions arrive parsed, or not at all when they are
    malformed. *)
#[export] Instance package : Package := {|
  Ctx := unit;
  Background := tt;
  TypeDefsT := option (ast.Document (string * bool));
  ResolverMap := unit;
  SchemaDirectiveVisitorMap := list string;
  DependencyMap := list string;
  Definition_ := string * bool;
  Internals := list (string * bool)
|}.

Definition known (name : string) (table : list (string * bool)) : bool :=
  existsb (fun t => fst t =? name) table.

Definition lookup (name : string) (c : registry)
  : (option Object * option error) * registry :=
  if known name (internals c)
  then ((Some name, None), c)
  else ((None, Some ("no definition found for type " ++ name)), c).

Definition declare (d : string * bool) (c : registry) : option error * registry :=
  if known (fst d) (internals c)
  then (None, c)
  else (None, {| document := document c; dependencyMap := dependencyMap c;
                 schema := schema c; extensions := extensions c;
                 internals := ((internals c : list (string * bool)) ++ [d])%list |}).

Definition parse (c : ExecutableSchema)
  : ast.Document Definition_ * option error :=
  match TypeDefs c with
  | Some doc => (doc, None)
  | None => ({| ast.Definitions := [] |}, Some "Syntax Error GraphQL")
  end.

Definition create (ctx : Ctx) (rs : ResolverMap) (ds : SchemaDirectiveVisitorMap)
           (es : list Extension) (doc : ast.Document Definition_)
  : registry * option error :=
  ({| document := doc; dependencyMap := []; schema := None; extensions := es;
      internals := [] |}, None).

Definition declaredNames (c : registry) : DependencyMap :=
  flat_map (fun n => match n with
                     | ast.TypeSystemNode d => [fst d]
                     | ast.SchemaDefinitionNode _ => []
                     end) (ast.Definitions (document c)).

(** A directive is applied when it is one of the known ones and fails
    otherwise; the ones known here leave config and registry alone. *)
Definition decorate (p : applyDirectiveParams) (c : registry)
  : (SchemaConfig * option error) * registry :=
  if forallb (fun d => ast.Value (ast.DirectiveName d) =? "deprecated") (directives p)
  then ((config p, None), c)
  else ((config p, Some "unknown directive"), c).

#[export] Instance collaborators : Collaborators := {|
  ConcatenateTypeDefs := parse;
  newRegistry := create;
  IdentifyDependencies := declaredNames;
  resolveDefinition := declare;
  getObject := lookup;
  typeArray := fun c => internals c;
  directiveArray := fun _ => [];
  applyDirectives := decorate;
  MarshalIndent := fun m _ _ => (String.concat "," m, None)
|}.

Definition named (n : string) : ast.Named := {| ast.Name_ := {| ast.Value := n |} |}.

Definition operation (kind name : string) : ast.OperationTypeDefinition :=
  {| ast.Operation := kind; ast.Type_ := named name |}.

Definition executable (defs : list (ast.Node Definition_)) : ExecutableSchema :=
  {| TypeDefs := Some {| ast.Definitions := defs |};
     Resolvers := tt; SchemaDirectives := []; Extensions_ := [] |}.

(** [type Query { ... } interface Node { id: ID } type Item implements
    Node { name: String }]: no schema declaration, and [Item] lacks the
    field of [Node]. *)
Definition brokenInterface : ExecutableSchema :=
  executable [ast.TypeSystemNode ("Query", true); ast.TypeSystemNode ("Item", false)].

(** [type Query { ... } type Mutation { ... }] *)
Definition plain : ExecutableSchema :=
  executable [ast.TypeSystemNode ("Query", true); ast.TypeSystemNode ("Mutation", true)].

(** [type Item { ... }]: no type named Query. *)
Definition noQuery : ExecutableSchema :=
  executable [ast.TypeSystemNode ("Item", true)].

(** [schema { query: Foo } type Foo { ... } type Query { ... }] *)
Definition fooRoot : ast.SchemaDefinition :=
  {| ast.Directives := []; ast.OperationTypes := [operation "query" "Foo"] |}.

Definition explicitFoo : ExecutableSchema :=
  executable [ast.SchemaDefinitionNode fooRoot;
              ast.TypeSystemNode ("Foo", true); ast.TypeSystemNode ("Query", true)].

(** [schema { mutation: Mutation } type Mutation { ... }]: the
    declaration names no query root. *)
Definition mutationOnly : ast.SchemaDefinition :=
  {| ast.Directives := []; ast.OperationTypes := [operation "mutation" "Mutation"] |}.

Definition explicitNoQuery : ExecutableSchema :=
  executable [ast.SchemaDefinitionNode mutationOnly;
              ast.TypeSystemNode ("Mutation", true)].

(** [schema { query: Missing }]: the declared root is not defined. *)
Definition missingRoot : ast.SchemaDefinition :=
  {| ast.Directives := [];
     ast.OperationTypes := [operation "mutation" "Item"; operation "query" "Missing";
                            operation "subscription" "Item"] |}.

(** The registry once [type Item] is resolved. *)
Definition itemRegistry : registry :=
  {| document := {| ast.Definitions := [] |}; dependencyMap := []; schema := None;
     extensions := []; internals := [("Item", true)] |}.

(** The registry once [type Mutation] is resolved. *)
Definition mutationRegistry : registry :=
  {| document := {| ast.Definitions := [] |}; dependencyMap := []; schema := None;
     extensions := []; internals := [("Mutation", true)] |}.

(** The config [Make] infers for [brokenInterface]. *)
Definition brokenConfig : SchemaConfig :=
  {| Query := Some "Query"; Mutation := None; Subscription := None;
     Types := [("Query", true); ("Item", false)];
     Directives := []; Extensions := [] |}.

(** The registry [Make] creates for [c], the state once its type
    definitions are resolved, and the state in which [Make] reaches
    line 60. *)
Definition startOf (c : ExecutableSchema) : registry :=
  match registryOf c tt with
  | Some r => r
  | None => itemRegistry
  end.

Definition typesResolved (c : ExecutableSchema) : State :=
  snd (resolveTypeSystem (ast.Definitions (document (startOf c)))
         {| reg := startOf c; events := [] |}).

Definition atLine60 (c : ExecutableSchema) : State :=
  match resolved c tt [] with
  | Some s => s
  | None => {| reg := itemRegistry; events := [] |}
  end.

End Sample.

(** ** Further vocabulary: the roots of a config and the lookups of a
    schema declaration *)

Section Roots.

Context `{RT : Runtime} `{EN : !Engine} `{PK : Package} `{CO : !Collaborators}.
Local Open Scope list_scope.

(** The root of kind [k] of a config. *)
Definition root (k : Root) (cfg : SchemaConfig) : option Object :=
  match k with
  | QueryRoot => Query cfg
  | MutationRoot => Mutation cfg
  | SubscriptionRoot => Subscription cfg
  end.

Definition declaresRoot (op : ast.OperationTypeDefinition) : bool :=
  match rootOf op with
  | Some _ => true
  | None => false
  end.

(** The operations of a declaration that name a root, in order. *)
Definition rootOperations (ops : list ast.OperationTypeDefinition) :=
  filter declaresRoot ops.

Definition lookupOf (op : ast.OperationTypeDefinition) : Event :=
  CallGetObject (typeName op).

(** The config handed to directive application, when this effect is
    one, has no root of kind [k]. *)
Definition appliesWithout (k : Root) (e : Event) : Prop :=
  match e with
  | CallApplyDirectives p => root k (config p) = None
  | _ => True
  end.

End Roots.

(** Further cases of the concrete world. *)

Module Cases.

Import Sample.

(** [schema @auth { query: Item }]: [auth] is not a known directive. *)
Definition guarded : ast.SchemaDefinition :=
  {| ast.Directives := [{| ast.DirectiveName := {| ast.Value := "auth" |};
                           ast.Arguments := [] |}];
     ast.OperationTypes := [operation "query" "Item"] |}.

(** [schema { query: A, mutation: A, query: B }]: the query root is
    declared twice. *)
Definition twice : list ast.OperationTypeDefinition :=
  [operation "query" "A"; operation "mutation" "A"; operation "query" "B"].

(** The registry once [type A] and [type B] are resolved. *)
Definition abRegistry : registry :=
  {| document := {| ast.Definitions := [] |}; dependencyMap := []; schema := None;
     extensions := []; internals := [("A", true); ("B", true)] |}.

(** [schema { query: A, mutation: A, query: B }] *)
Definition twiceDeclared : ast.SchemaDefinition :=
  {| ast.Directives := []; ast.OperationTypes := twice |}.

Definition noRoots : SchemaConfig :=
  {| Query := None; Mutation := None; Subscription := None;
     Types := []; Directives := []; Extensions := [] |}.

(** [plain] with a table of directive visitors. *)
Definition plainWithVisitors : ExecutableSchema :=
  {| TypeDefs := TypeDefs plain; Resolvers := tt;
     SchemaDirectives := ["auth"]; Extensions_ := [] |}.

End Cases.

(** ** Properties *)

Section Theory.

Context `{RT : Runtime} `{EN : !Engine} `{PK : Package} `{CO : !Collaborators}.
Local Open Scope list_scope.
Local Open Scope go_scope.

(** *** Effects of the primitive actions *)

Lemma printed_app (l1 l2 : list Event) : printed (l1 ++ l2) = printed l1 ++ printed l2.
Proof.
  induction l1 as [| e l1 IH]; simpl; [reflexivity |].
  destruct e; simpl; rewrite IH; reflexivity.
Qed.

Lemma printed_silent (l : list Event) : Forall silent l -> printed l = [].
Proof.
  induction 1 as [| e l He _ IH]; simpl; [reflexivity |].
  destruct e; simpl in *; tauto.
Qed.

Lemma only_ret {A} (Q : Event -> Prop) (a : A) : only Q (ret a).
Proof. intros s. exists []. simpl. rewrite app_nil_r. auto. Qed.

Lemma only_bind {A B} (Q : Event -> Prop) (m : M A) (k : A -> M B) :
  only Q m -> (forall a, only Q (k a)) -> only Q (bind m k).
Proof.
  intros Hm Hk s. unfold bind.
  destruct (Hm s) as [n1 [E1 F1]]. destruct (m s) as [a s1]. simpl in E1.
  destruct (Hk a s1) as [n2 [E2 F2]].
  exists (n1 ++ n2). rewrite E2, E1, app_assoc. split; [reflexivity |].
  apply Forall_app; auto.
Qed.

Lemma only_emit (Q : Event -> Prop) (e : Event) : Q e -> only Q (emit e).
Proof. intros He s. exists [e]. simpl. auto. Qed.

Lemma only_getRegistry (Q : Event -> Prop) : only Q getRegistry.
Proof. intros s. exists []. simpl. rewrite app_nil_r. auto. Qed.

Lemma only_putRegistry (Q : Event -> Prop) (c : registry) : only Q (putRegistry c).
Proof. intros s. exists []. simpl. rewrite app_nil_r. auto. Qed.

Lemma only_method {A} (Q : Event -> Prop) (f : registry -> A * registry) :
  only Q (method f).
Proof.
  intros s. exists []. unfold method. destruct (f (reg s)). simpl.
  rewrite app_nil_r. auto.
Qed.

Lemma only_weaken {A} (Q Q' : Event -> Prop) (m : M A) :
  (forall e, Q e -> Q' e) -> only Q m -> only Q' m.
Proof.
  intros HQ Hm s. destruct (Hm s) as [new [E F]]. exists new. split; [exact E |].
  eapply Forall_impl; eauto.
Qed.

(** Structural proof of [only] along the code. *)
Ltac along :=
  repeat first
    [ apply only_ret | apply only_getRegistry | apply only_putRegistry
    | apply only_method | apply only_emit; simpl; auto
    | apply only_bind; [| intros ?]
    | match goal with
      | |- context [match ?x with _ => _ end] => destruct x
      | |- context [if ?b then _ else _] => destruct b
      end ].

(** *** The collaborators' wrappers *)

Lemma only_c_getObject (Q : Event -> Prop) (name : string) :
  Q (CallGetObject name) -> only Q (c_getObject name).
Proof. intros. unfold c_getObject. along. Qed.

Lemma only_graphql_NewSchema (Q : Event -> Prop) (cfg : SchemaConfig) :
  Q (CallNewSchema cfg) -> only Q (graphql_NewSchema cfg).
Proof. intros. unfold graphql_NewSchema. along. Qed.

Lemma only_c_applyDirectives (Q : Event -> Prop) (p : applyDirectiveParams) :
  Q (CallApplyDirectives p) -> only Q (c_applyDirectives p).
Proof. intros. unfold c_applyDirectives. along. Qed.

(** *** The loop over the declared operations *)

Lemma only_addOperation (Q : Event -> Prop) op cfg :
  (forall name, Q (CallGetObject name)) -> only Q (addOperation op cfg).
Proof.
  intros HQ. unfold addOperation.
  repeat match goal with
         | |- context [if ?b then _ else _] => destruct b
         end;
    try (apply only_bind; [apply only_c_getObject; apply HQ | intros [o [e |]]]);
    apply only_ret.
Qed.

Lemma only_addOperations (Q : Event -> Prop) ops :
  (forall name, Q (CallGetObject name)) -> forall cfg, only Q (addOperations ops cfg).
Proof.
  intros HQ. induction ops as [| op ops IH]; intros cfg; simpl.
  - apply only_ret.
  - apply only_bind; [apply only_addOperation; exact HQ |].
    intros [cfg' [e |]]; [apply only_ret | apply IH].
Qed.

(** One turn of the loop, in the words of the claim: an operation that
    declares a root looks its type name up and sets that root, or
    returns the error of the lookup; any other operation is skipped. *)
Lemma addOperation_eq op cfg s :
  addOperation op cfg s =
  match rootOf op with
  | None => ((cfg, None), s)
  | Some k =>
      let r := getObject (typeName op) (reg s) in
      let s' := {| reg := snd r; events := events s ++ [CallGetObject (typeName op)] |} in
      match snd (fst r) with
      | None => ((setRoot k cfg (fst (fst r)), None), s')
      | Some e => ((cfg, Some e), s')
      end
  end.
Proof.
  unfold addOperation, rootOf, typeName, ast.OperationTypeQuery,
    ast.OperationTypeMutation, ast.OperationTypeSubscription.
  destruct (ast.Operation op =? "query")%string;
    [| destruct (ast.Operation op =? "mutation")%string;
       [| destruct (ast.Operation op =? "subscription")%string ]];
    try reflexivity;
    unfold c_getObject, bind, emit, method, ret; simpl;
    destruct (getObject _ (reg s)) as [[o [e |]] c']; reflexivity.
Qed.

Lemma addOperations_app l1 l2 cfg s :
  addOperations (l1 ++ l2) cfg s =
  match addOperations l1 cfg s with
  | ((cfg1, None), s1) => addOperations l2 cfg1 s1
  | ((cfg1, Some e), s1) => ((cfg1, Some e), s1)
  end.
Proof.
  revert cfg s. induction l1 as [| op l1 IH]; intros cfg s; simpl.
  - reflexivity.
  - unfold bind. destruct (addOperation op cfg s) as [[cfg' [e |]] s'].
    + reflexivity.
    + apply IH.
Qed.

(** The loop touches the roots only. *)
Lemma addOperation_fields op cfg s :
  let cfg' := fst (fst (addOperation op cfg s)) in
  Types cfg' = Types cfg /\ Directives cfg' = Directives cfg /\
  graphql.Extensions cfg' = graphql.Extensions cfg.
Proof.
  rewrite addOperation_eq. destruct (rootOf op) as [k |]; simpl; auto.
  destruct (snd (fst (getObject (typeName op) (reg s)))); simpl; auto.
  destruct k; simpl; auto.
Qed.

Lemma addOperations_fields ops : forall cfg s,
  let cfg' := fst (fst (addOperations ops cfg s)) in
  Types cfg' = Types cfg /\ Directives cfg' = Directives cfg /\
  graphql.Extensions cfg' = graphql.Extensions cfg.
Proof.
  induction ops as [| op ops IH]; intros cfg s; simpl; auto.
  unfold bind. pose proof (addOperation_fields op cfg s) as H.
  destruct (addOperation op cfg s) as [[cfg1 [e |]] s1]; simpl in *; auto.
  specialize (IH cfg1 s1). simpl in IH.
  destruct IH as (-> & -> & ->). exact H.
Qed.

(** Operations that do not declare the query root leave it alone. *)
Lemma addOperations_Query ops : forall cfg s,
  Forall (fun op => rootOf op <> Some QueryRoot) ops ->
  Query (fst (fst (addOperations ops cfg s))) = Query cfg.
Proof.
  induction ops as [| op ops IH]; intros cfg s Hops; simpl; auto.
  inversion Hops as [| ? ? Hop Hrest]; subst.
  unfold bind. rewrite addOperation_eq.
  destruct (rootOf op) as [k |]; simpl.
  - destruct (snd (fst (getObject (typeName op) (reg s)))); simpl; auto.
    rewrite IH by assumption. destruct k; simpl; congruence.
  - apply IH; assumption.
Qed.

(** The registry's [schema] field along the loop, when lookups leave
    it alone. *)
Lemma addOperations_schema ops :
  (forall name c, schema (snd (getObject name c)) = schema c) ->
  forall cfg s, schema (reg (snd (addOperations ops cfg s))) = schema (reg s).
Proof.
  intros Hget. induction ops as [| op ops IH]; intros cfg s; simpl; auto.
  unfold bind. rewrite addOperation_eq.
  destruct (rootOf op) as [k |]; simpl.
  - destruct (snd (fst (getObject (typeName op) (reg s)))); simpl.
    + apply Hget.
    + rewrite IH. simpl. apply Hget.
  - apply IH.
Qed.

(** *** [buildSchemaFromAST], step by step *)

Lemma buildSchemaFromAST_eq definition flag s :
  buildSchemaFromAST definition flag s =
  match addOperations (ast.OperationTypes definition) (schemaConfigOf (reg s)) s with
  | ((_, Some e), s1) => (Some e, s1)
  | ((cfg1, None), s1) =>
      let p := schemaDirectives cfg1 definition flag in
      let evs := events s1 ++ [CallApplyDirectives p] in
      match applyDirectives p (reg s1) with
      | ((_, Some e), c2) => (Some e, {| reg := c2; events := evs |})
      | ((cfg2, None), c2) =>
          match NewSchema cfg2 with
          | (_, Some e) =>
              (Some e, {| reg := c2; events := evs ++ [CallNewSchema cfg2] |})
          | (sch, None) =>
              (None, {| reg := set_schema c2 (Some sch);
                        events := evs ++ [CallNewSchema cfg2] |})
          end
      end
  end.
Proof.
  unfold buildSchemaFromAST, bind at 1, getRegistry. unfold bind at 1.
  fold (schemaConfigOf (reg s)).
  destruct (addOperations _ _ s) as [[cfg1 [e |]] s1]; [reflexivity |].
  unfold bind at 1, c_applyDirectives, bind at 1, emit, method. simpl.
  fold (schemaDirectives cfg1 definition flag).
  destruct (applyDirectives _ (reg s1)) as [[cfg2 [e |]] c2]; [reflexivity |].
  unfold bind, graphql_NewSchema, bind, emit, ret. simpl.
  destruct (NewSchema cfg2) as [sch [e |]]; reflexivity.
Qed.

(** *** [Make], step by step *)

Lemma assemble_eq c s :
  assemble c s =
  match resolveDefinitions
          {| reg := set_dependencyMap (reg s) (IdentifyDependencies (reg s));
             events := events s |} with
  | (Some e, s1) => ((zeroSchema, Some e), s1)
  | (None, s1) =>
      match schema (reg s1) with
      | Some sch => ((sch, None), s1)
      | None =>
          let r := reg s1 in
          match snd (fst (getObject DefaultRootQueryName r)) with
          | Some e =>
              ((zeroSchema, Some e),
               {| reg := afterQuery r;
                  events := events s1 ++ [CallGetObject DefaultRootQueryName] |})
          | None =>
              let cfg := inferredConfig c r in
              let evs := events s1 ++
                         [CallGetObject DefaultRootQueryName;
                          CallGetObject DefaultRootMutationName;
                          CallGetObject DefaultRootSubscriptionName;
                          CallNewSchema cfg] in
              ((fst (NewSchema cfg), None),
               {| reg := afterSubscription r;
                  events := match snd (NewSchema cfg) with
                            | Some _ => evs ++ [Println (dump r)]
                            | None => evs
                            end |})
          end
      end
  end.
Proof.
  unfold assemble, bind at 1, getRegistry. unfold bind at 1, putRegistry.
  unfold bind at 1.
  destruct (resolveDefinitions _) as [[e |] s1]; [reflexivity |].
  unfold bind at 1. destruct (schema (reg s1)) as [sch |]; [reflexivity |].
  unfold inferredConfig, dump, afterSubscription, afterMutation, afterQuery.
  unfold bind at 1, c_getObject, bind at 1, emit, method. simpl.
  destruct (getObject DefaultRootQueryName (reg s1)) as [[q [e |]] c2]; simpl;
    [reflexivity |].
  unfold bind at 1. unfold bind at 1. simpl.
  destruct (getObject DefaultRootMutationName c2) as [[m em] c3]; simpl.
  unfold bind at 1. unfold bind at 1. simpl.
  destruct (getObject DefaultRootSubscriptionName c3) as [[sb es] c4]; simpl.
  unfold bind, graphql_NewSchema, fmt_Println, bind, emit, ret. simpl.
  destruct (NewSchema _) as [sch [e |]]; simpl.
  - destruct (MarshalIndent (dependencyMap c4) "" "  ") as [j ej]; simpl.
    rewrite <- !app_assoc. reflexivity.
  - rewrite <- !app_assoc. reflexivity.
Qed.

Lemma Make_explicit c ctx out s1 sch :
  resolved c ctx out = Some s1 -> schema (reg s1) = Some sch ->
  Make c ctx out = ((sch, None), events s1).
Proof.
  unfold resolved, registryOf, Make.
  destruct (ConcatenateTypeDefs c) as [doc [e |]]; [discriminate |].
  destruct (newRegistry _ _ _ _ doc) as [r [e |]]; [discriminate |].
  rewrite assemble_eq. simpl.
  destruct (resolveDefinitions _) as [[e |] s]; [discriminate |].
  intros [= ->] ->. reflexivity.
Qed.

Lemma Make_inferred c ctx out s1 :
  resolved c ctx out = Some s1 -> schema (reg s1) = None ->
  Make c ctx out =
  match snd (fst (getObject DefaultRootQueryName (reg s1))) with
  | Some e => ((zeroSchema, Some e), events s1 ++ [CallGetObject DefaultRootQueryName])
  | None =>
      let cfg := inferredConfig c (reg s1) in
      ((fst (NewSchema cfg), None),
       events s1 ++
       [CallGetObject DefaultRootQueryName; CallGetObject DefaultRootMutationName;
        CallGetObject DefaultRootSubscriptionName; CallNewSchema cfg] ++
       match snd (NewSchema cfg) with
       | Some _ => [Println (dump (reg s1))]
       | None => []
       end)
  end.
Proof.
  unfold resolved, registryOf, Make.
  destruct (ConcatenateTypeDefs c) as [doc [e |]]; [discriminate |].
  destruct (newRegistry _ _ _ _ doc) as [r [e |]]; [discriminate |].
  rewrite assemble_eq. simpl.
  destruct (resolveDefinitions _) as [[e |] s]; [discriminate |].
  intros [= ->] ->.
  destruct (snd (fst (getObject DefaultRootQueryName (reg s1)))); [reflexivity |].
  simpl. destruct (snd (NewSchema _)); simpl.
  - rewrite <- !app_assoc. reflexivity.
  - reflexivity.
Qed.

(** *** The effects of each function *)

Section Effects.

Variable Q : Event -> Prop.
Hypothesis Q_lookup : forall name, Q (CallGetObject name).
Hypothesis Q_construct : forall cfg, Q (CallNewSchema cfg).

Lemma only_buildSchemaFromAST definition flag :
  (forall cfg, Q (CallApplyDirectives (schemaDirectives cfg definition flag))) ->
  only Q (buildSchemaFromAST definition flag).
Proof.
  intros Q_apply. unfold buildSchemaFromAST.
  apply only_bind; [apply only_getRegistry | intros c].
  apply only_bind; [apply only_addOperations; exact Q_lookup | intros [cfg1 [e |]]];
    [apply only_ret |].
  apply only_bind; [apply only_c_applyDirectives; apply Q_apply | intros [cfg2 [e |]]];
    [apply only_ret |].
  apply only_bind; [apply only_graphql_NewSchema; apply Q_construct | intros [sch [e |]]];
    along.
Qed.

Lemma only_resolveTypeSystem defs : only Q (resolveTypeSystem defs).
Proof.
  induction defs as [| [d | d] defs IH]; simpl; [apply only_ret | exact IH |].
  apply only_bind; [apply only_method | intros [e |]]; [apply only_ret | exact IH].
Qed.

Hypothesis Q_apply :
  forall cfg definition, Q (CallApplyDirectives (schemaDirectives cfg definition false)).

Lemma only_resolveSchema defs : only Q (resolveSchema defs).
Proof.
  induction defs as [| [d | d] defs IH]; simpl; [apply only_ret | | exact IH].
  apply only_bind; [apply only_buildSchemaFromAST; intros; apply Q_apply | intros [e |]];
    [apply only_ret | exact IH].
Qed.

Lemma only_resolveDefinitions : only Q resolveDefinitions.
Proof.
  unfold resolveDefinitions.
  apply only_bind; [apply only_getRegistry | intros c].
  apply only_bind; [apply only_resolveTypeSystem | intros [e |]];
    [apply only_ret | apply only_resolveSchema].
Qed.

Hypothesis Q_print : forall line, Q (Println line).

Lemma only_assemble c : only Q (assemble c).
Proof.
  unfold assemble.
  apply only_bind; [apply only_getRegistry | intros r].
  apply only_bind; [apply only_putRegistry | intros _].
  apply only_bind; [apply only_resolveDefinitions | intros [e |]]; [apply only_ret |].
  apply only_bind; [apply only_getRegistry | intros r1].
  destruct (schema r1); [apply only_ret |].
  apply only_bind; [apply only_c_getObject; apply Q_lookup | intros [q [e |]]];
    [apply only_ret |].
  apply only_bind; [apply only_c_getObject; apply Q_lookup | intros [m em]].
  apply only_bind; [apply only_c_getObject; apply Q_lookup | intros [sb es]].
  apply only_bind; [apply only_getRegistry | intros r4].
  apply only_bind; [apply only_graphql_NewSchema; apply Q_construct | intros [sch err]].
  apply only_bind; [| intros _; apply only_ret].
  destruct err; [| apply only_ret].
  apply only_bind; [apply only_getRegistry | intros r5].
  destruct (MarshalIndent _ _ _). apply only_emit. apply Q_print.
Qed.

Lemma only_Make c ctx out :
  exists new, snd (Make c ctx out) = out ++ new /\ Forall Q new.
Proof.
  unfold Make.
  destruct (ConcatenateTypeDefs c) as [doc [e |]];
    [exists []; simpl; rewrite app_nil_r; auto |].
  destruct (newRegistry _ _ _ _ doc) as [r [e |]];
    [exists []; simpl; rewrite app_nil_r; auto |].
  destruct (only_assemble c {| reg := r; events := out |}) as [new [E F]].
  destruct (assemble c _) as [res s1]. simpl in *. eauto.
Qed.

End Effects.

(** *** The entry points *)

(** C9: [MakeExecutableSchema config] returns what
    [MakeExecutableSchemaWithContext] returns on the background context,
    and each of the two is [config.Make] on the corresponding context. *)
Theorem MakeExecutableSchema_is_Make (config : ExecutableSchema) (ctx : Ctx)
        (out : list Event) :
  MakeExecutableSchema config out =
    MakeExecutableSchemaWithContext Background config out /\
  MakeExecutableSchema config out = Make config Background out /\
  MakeExecutableSchemaWithContext ctx config out = Make config ctx out.
Proof. repeat split. Qed.

(** *** [buildSchemaFromAST] *)

(** C10: [buildSchemaFromAST] assigns the registry's [schema] field only
    after root resolution, directive application and [graphql.NewSchema]
    have all succeeded; when it returns an error the field is as it was.
    Lookups and directive application are taken not to write the field
    themselves. *)
Theorem buildSchemaFromAST_stores_last definition flag s :
  (forall name c, schema (snd (getObject name c)) = schema c) ->
  (forall p c, schema (snd (applyDirectives p c)) = schema c) ->
  (forall e s', buildSchemaFromAST definition flag s = (Some e, s') ->
                schema (reg s') = schema (reg s)) /\
  (forall s', buildSchemaFromAST definition flag s = (None, s') ->
     exists cfg1 s1 cfg2 c2 sch,
       addOperations (ast.OperationTypes definition) (schemaConfigOf (reg s)) s =
         ((cfg1, None), s1) /\
       applyDirectives (schemaDirectives cfg1 definition flag) (reg s1) =
         ((cfg2, None), c2) /\
       NewSchema cfg2 = (sch, None) /\
       reg s' = set_schema c2 (Some sch)).
Proof.
  intros Hget Hdir. rewrite buildSchemaFromAST_eq.
  pose proof (addOperations_schema (ast.OperationTypes definition) Hget
                (schemaConfigOf (reg s)) s) as Hloop.
  destruct (addOperations _ _ s) as [[cfg1 [e1 |]] s1]; simpl in *.
  - split; [intros e s' [= <- <-]; exact Hloop | discriminate].
  - pose proof (Hdir (schemaDirectives cfg1 definition flag) (reg s1)) as Hd.
    destruct (applyDirectives _ (reg s1)) as [[cfg2 [e2 |]] c2] eqn:Happly;
      simpl in *.
    + split; [intros e s' [= <- <-]; simpl; congruence | discriminate].
    + destruct (NewSchema cfg2) as [sch [e3 |]] eqn:Hnew.
      * split; [intros e s' [= <- <-]; simpl; congruence | discriminate].
      * split; [discriminate |]. intros s' [= <-].
        exists cfg1, s1, cfg2, c2, sch. auto.
Qed.

(** C5: [buildSchemaFromAST] goes through the declared operations in
    order; an operation that declares a root looks its type name up with
    [getObject] and sets that root to the object obtained, leaving the
    other two roots as they are.  The first lookup that fails ends the
    function with its error: no directive is applied, no schema built.
    When every lookup succeeds the schema directives are applied to the
    config, the schema is built from the config they leave, and the
    registry's [schema] field holds it when the function returns. *)
Theorem buildSchemaFromAST_steps definition flag s :
  let cfg0 := schemaConfigOf (reg s) in
  (forall pre op k cfgp sp,
     rootOf op = Some k ->
     addOperations pre cfg0 s = ((cfgp, None), sp) ->
     snd (fst (getObject (typeName op) (reg sp))) = None ->
     let r := addOperations (pre ++ [op]) cfg0 s in
     snd (fst r) = None /\
     root k (fst (fst r)) = fst (fst (getObject (typeName op) (reg sp))) /\
     (forall k', k' <> k -> root k' (fst (fst r)) = root k' cfgp) /\
     reg (snd r) = snd (getObject (typeName op) (reg sp)) /\
     events (snd r) = events sp ++ [CallGetObject (typeName op)]) /\
  (forall pre op post k cfgp sp e,
     ast.OperationTypes definition = pre ++ op :: post ->
     rootOf op = Some k ->
     addOperations pre cfg0 s = ((cfgp, None), sp) ->
     snd (fst (getObject (typeName op) (reg sp))) = Some e ->
     buildSchemaFromAST definition flag s =
       (Some e, {| reg := snd (getObject (typeName op) (reg sp));
                   events := events sp ++ [CallGetObject (typeName op)] |})) /\
  (forall cfg1 s1 cfg2 c2 sch,
     addOperations (ast.OperationTypes definition) cfg0 s = ((cfg1, None), s1) ->
     applyDirectives (schemaDirectives cfg1 definition flag) (reg s1) =
       ((cfg2, None), c2) ->
     NewSchema cfg2 = (sch, None) ->
     let r := buildSchemaFromAST definition flag s in
     fst r = None /\
     schema (reg (snd r)) = Some sch /\
     document (reg (snd r)) = document c2 /\
     dependencyMap (reg (snd r)) = dependencyMap c2 /\
     extensions (reg (snd r)) = extensions c2 /\
     internals (reg (snd r)) = internals c2 /\
     events (snd r) =
       events s1 ++ [CallApplyDirectives (schemaDirectives cfg1 definition flag);
                     CallNewSchema cfg2]).
Proof.
  intros cfg0. repeat apply conj.
  - intros pre op k cfgp sp Hk Hpre Hok r. subst r.
    rewrite addOperations_app, Hpre. simpl. unfold bind.
    rewrite addOperation_eq, Hk. simpl. rewrite Hok. simpl.
    repeat apply conj; try reflexivity.
    + destruct k; reflexivity.
    + intros k' Hk'. destruct k, k'; simpl; congruence.
  - intros pre op post k cfgp sp e Hops Hk Hpre Herr.
    rewrite buildSchemaFromAST_eq, Hops, addOperations_app. fold cfg0.
    rewrite Hpre. simpl. unfold bind.
    rewrite addOperation_eq, Hk. simpl. rewrite Herr. reflexivity.
  - intros cfg1 s1 cfg2 c2 sch Hloop Hdir Hnew r. subst r.
    rewrite buildSchemaFromAST_eq. fold cfg0. rewrite Hloop. simpl.
    rewrite Hdir, Hnew. simpl. rewrite <- app_assoc.
    repeat apply conj; reflexivity.
Qed.

(** C6, as the code has it: [buildSchemaFromAST] applies the schema
    directives once, when the root lookups have succeeded, and tells
    directive application what it was told itself: thunks are
    disallowed when its caller passes [false], allowed when it passes
    [true].  An error of directive application under that flag ends
    [buildSchemaFromAST] with that error, before any schema is built. *)
Theorem schema_directives_get_the_flag definition flag s :
  (exists new,
     events (snd (buildSchemaFromAST definition flag s)) = events s ++ new /\
     Forall (thunksAre flag) new) /\
  (forall cfg1 s1,
     addOperations (ast.OperationTypes definition) (schemaConfigOf (reg s)) s =
       ((cfg1, None), s1) ->
     exists p tail,
       events (snd (buildSchemaFromAST definition flag s)) =
         events s1 ++ CallApplyDirectives p :: tail /\
       allowThunks p = flag /\
       directives p = ast.Directives definition /\
       node p = definition /\
       config p = cfg1 /\
       Forall (fun e => forall p', e <> CallApplyDirectives p') tail /\
       (forall e, snd (fst (applyDirectives p (reg s1))) = Some e ->
          fst (buildSchemaFromAST definition flag s) = Some e /\ tail = [])).
Proof.
  split.
  - apply only_buildSchemaFromAST; simpl; auto.
  - intros cfg1 s1 Hloop. rewrite buildSchemaFromAST_eq, Hloop. simpl.
    exists (schemaDirectives cfg1 definition flag).
    destruct (applyDirectives _ (reg s1)) as [[cfg2 [e2 |]] c2]; simpl.
    + exists []. repeat apply conj; try reflexivity; [constructor |].
      intros e [= <-]. split; reflexivity.
    + destruct (NewSchema cfg2) as [sch [e3 |]]; simpl;
        exists [CallNewSchema cfg2]; rewrite <- app_assoc;
        (repeat apply conj; try reflexivity;
         [repeat constructor; discriminate | discriminate]).
Qed.

(** *** The two paths of [Make] *)

Lemma resolved_effects (Q : Event -> Prop) c ctx out s1 :
  (forall name, Q (CallGetObject name)) ->
  (forall cfg, Q (CallNewSchema cfg)) ->
  (forall cfg definition, Q (CallApplyDirectives (schemaDirectives cfg definition false))) ->
  resolved c ctx out = Some s1 ->
  exists new, events s1 = out ++ new /\ Forall Q new.
Proof.
  intros Q1 Q2 Q3. unfold resolved.
  destruct (registryOf c ctx) as [r |]; [| discriminate].
  destruct (only_resolveDefinitions Q Q1 Q2 Q3 {| reg := r; events := out |})
    as [new [E F]].
  destruct (resolveDefinitions _) as [[e |] s]; [discriminate |].
  intros [= <-]. eauto.
Qed.

(** [Make] stops with the error of the step that fails before line 60. *)
Lemma Make_unresolved (Q : Event -> Prop) c ctx out :
  (forall name, Q (CallGetObject name)) ->
  (forall cfg, Q (CallNewSchema cfg)) ->
  (forall cfg definition, Q (CallApplyDirectives (schemaDirectives cfg definition false))) ->
  resolved c ctx out = None ->
  exists e new, Make c ctx out = ((zeroSchema, Some e), out ++ new) /\ Forall Q new.
Proof.
  intros Q1 Q2 Q3. unfold resolved, registryOf, Make.
  destruct (ConcatenateTypeDefs c) as [doc [e |]];
    [exists e, []; rewrite app_nil_r; auto |].
  destruct (newRegistry _ _ _ _ doc) as [r [e |]];
    [exists e, []; rewrite app_nil_r; auto |].
  rewrite assemble_eq. simpl.
  destruct (only_resolveDefinitions Q Q1 Q2 Q3
              {| reg := set_dependencyMap r (IdentifyDependencies r); events := out |})
    as [new [E F]].
  destruct (resolveDefinitions _) as [[e |] s1]; [| discriminate].
  simpl in E. rewrite E. eauto.
Qed.

Lemma resolveSchema_none defs s :
  schemaDefinitions defs = [] -> resolveSchema defs s = (None, s).
Proof.
  induction defs as [| [d | d] defs IH]; simpl; [reflexivity | discriminate | exact IH].
Qed.

Lemma resolveSchema_single defs definition s :
  schemaDefinitions defs = [definition] ->
  resolveSchema defs s = buildSchemaFromAST definition false s.
Proof.
  induction defs as [| [d | d] defs IH]; simpl; [discriminate | | exact IH].
  intros [= -> Hrest]. unfold bind.
  destruct (buildSchemaFromAST definition false s) as [[e |] s']; [reflexivity |].
  apply resolveSchema_none; exact Hrest.
Qed.

(** C3: in the inferred path, [Make] returns the error of the lookup of
    [Query] when that lookup fails.  When it succeeds, the errors of the
    lookups of [Mutation] and [Subscription] are dropped: [Make] goes on
    to build the schema, with the root of a failed lookup unset, a
    failed lookup returning no object. *)
Theorem inferred_roots c ctx out s1 :
  resolved c ctx out = Some s1 -> schema (reg s1) = None ->
  (forall name r e, snd (fst (getObject name r)) = Some e ->
                    fst (fst (getObject name r)) = None) ->
  let r := reg s1 in
  (forall e, snd (fst (getObject DefaultRootQueryName r)) = Some e ->
     Make c ctx out =
       ((zeroSchema, Some e), events s1 ++ [CallGetObject DefaultRootQueryName])) /\
  (snd (fst (getObject DefaultRootQueryName r)) = None ->
   exists cfg tail,
     Make c ctx out =
       ((fst (NewSchema cfg), None),
        events s1 ++
        [CallGetObject DefaultRootQueryName; CallGetObject DefaultRootMutationName;
         CallGetObject DefaultRootSubscriptionName; CallNewSchema cfg] ++ tail) /\
     Query cfg = fst (fst (getObject DefaultRootQueryName r)) /\
     Mutation cfg = fst (fst (getObject DefaultRootMutationName (afterQuery r))) /\
     Subscription cfg =
       fst (fst (getObject DefaultRootSubscriptionName (afterMutation r))) /\
     (forall e, snd (fst (getObject DefaultRootMutationName (afterQuery r))) = Some e ->
                Mutation cfg = None) /\
     (forall e, snd (fst (getObject DefaultRootSubscriptionName (afterMutation r))) = Some e ->
                Subscription cfg = None)).
Proof.
  intros Hres Hnone Hnil r. rewrite (Make_inferred c ctx out s1 Hres Hnone). fold r.
  split.
  - intros e ->. reflexivity.
  - intros ->. simpl.
    exists (inferredConfig c r).
    exists (match snd (NewSchema (inferredConfig c r)) with
            | Some _ => [Println (dump r)]
            | None => []
            end).
    repeat split; simpl; intros e He; eapply Hnil; exact He.
Qed.

(** C4, as the code has it: the dependency map is printed exactly when
    [graphql.NewSchema] refuses the config of the inferred path, once,
    right after the refused call.  [buildSchemaFromAST] prints nothing,
    whether [graphql.NewSchema] accepts its config or not; and whatever
    [Make] does, it prints at most that one line, and only after a
    refused call. *)
Theorem dump_on_inferred_failure :
  (forall definition flag, only silent (buildSchemaFromAST definition flag)) /\
  (forall c ctx out,
     exists new, snd (Make c ctx out) = out ++ new /\
       (Forall silent new \/
        exists pre cfg line,
          new = pre ++ [CallNewSchema cfg; Println line] /\
          Forall silent pre /\ snd (NewSchema cfg) <> None)) /\
  (forall c ctx out s1,
     resolved c ctx out = Some s1 -> schema (reg s1) = None ->
     snd (fst (getObject DefaultRootQueryName (reg s1))) = None ->
     printed (snd (Make c ctx out)) =
       printed out ++
       match snd (NewSchema (inferredConfig c (reg s1))) with
       | Some _ => [dump (reg s1)]
       | None => []
       end).
Proof.
  assert (Hsilent : forall c ctx out s1, resolved c ctx out = Some s1 ->
                      exists new, events s1 = out ++ new /\ Forall silent new).
  { intros c ctx out s1. apply resolved_effects; simpl; auto. }
  repeat split.
  - intros definition flag. apply only_buildSchemaFromAST; simpl; auto.
  - intros c ctx out. destruct (resolved c ctx out) as [s1 |] eqn:Hres.
    + destruct (Hsilent _ _ _ _ Hres) as [n1 [E1 F1]].
      destruct (schema (reg s1)) as [sch |] eqn:Hsch.
      * rewrite (Make_explicit c ctx out s1 sch Hres Hsch). simpl. eauto.
      * rewrite (Make_inferred c ctx out s1 Hres Hsch).
        destruct (snd (fst (getObject DefaultRootQueryName (reg s1)))); simpl.
        { exists (n1 ++ [CallGetObject DefaultRootQueryName]).
          rewrite E1, app_assoc. split; [reflexivity |]. left.
          apply Forall_app. split; [exact F1 | repeat constructor]. }
        destruct (snd (NewSchema (inferredConfig c (reg s1)))) as [e |] eqn:Hnew.
        { eexists. rewrite E1, <- app_assoc. split; [reflexivity |]. right.
          exists (n1 ++ [CallGetObject DefaultRootQueryName;
                         CallGetObject DefaultRootMutationName;
                         CallGetObject DefaultRootSubscriptionName]).
          exists (inferredConfig c (reg s1)), (dump (reg s1)).
          rewrite <- app_assoc. simpl. split; [reflexivity |]. split.
          - apply Forall_app. split; [exact F1 | repeat constructor].
          - rewrite Hnew. discriminate. }
        { eexists. rewrite E1, <- app_assoc. split; [reflexivity |]. left.
          apply Forall_app. split; [exact F1 | repeat constructor]. }
    + destruct (Make_unresolved silent c ctx out) as (e & new & E & F);
        simpl; auto.
      rewrite E. simpl. eauto.
  - intros c ctx out s1 Hres Hsch Hquery.
    destruct (Hsilent _ _ _ _ Hres) as [n1 [E1 F1]].
    rewrite (Make_inferred c ctx out s1 Hres Hsch), Hquery. simpl.
    rewrite E1, !printed_app, (printed_silent n1 F1), app_nil_r. simpl.
    destruct (snd (NewSchema _)); reflexivity.
Qed.

(** C2: when the document holds a schema declaration that names its
    query root and the schema is built from it, [Make] returns that
    schema, the one stored in the registry, and does nothing after the
    definitions are resolved: no default root name is looked up.  The
    query root of the config the schema is built from is the object
    obtained for the declared name, directive application being taken
    to leave the query root of the config alone. *)
Theorem explicit_schema_wins c ctx out r0 definition st s1 pre op post :
  registryOf c ctx = Some r0 ->
  schemaDefinitions (ast.Definitions (document r0)) = [definition] ->
  resolveTypeSystem (ast.Definitions (document r0)) {| reg := r0; events := out |} =
    (None, st) ->
  ast.OperationTypes definition = pre ++ op :: post ->
  rootOf op = Some QueryRoot ->
  Forall (fun o => rootOf o <> Some QueryRoot) post ->
  buildSchemaFromAST definition false st = (None, s1) ->
  (forall p r, Query (fst (fst (applyDirectives p r))) = Query (config p)) ->
  let sp := snd (addOperations pre (schemaConfigOf (reg st)) st) in
  exists cfg sch evs,
    Make c ctx out = ((sch, None), events s1) /\
    resolved c ctx out = Some s1 /\
    schema (reg s1) = Some sch /\
    events s1 = evs ++ [CallNewSchema cfg] /\
    NewSchema cfg = (sch, None) /\
    snd (fst (getObject (typeName op) (reg sp))) = None /\
    Query cfg = fst (fst (getObject (typeName op) (reg sp))).
Proof.
  intros Hreg Hone Htypes Hops Hk Hpost Hbuild Hframe sp.
  assert (Hres : resolved c ctx out = Some s1).
  { unfold resolved. rewrite Hreg. unfold resolveDefinitions, bind, getRegistry.
    simpl. rewrite Htypes, (resolveSchema_single _ _ _ Hone), Hbuild. reflexivity. }
  rewrite buildSchemaFromAST_eq in Hbuild.
  destruct (addOperations (ast.OperationTypes definition) _ st)
    as [[cfg1 [e1 |]] s1'] eqn:Hloop; [discriminate |].
  simpl in Hbuild.
  pose proof (Hframe (schemaDirectives cfg1 definition false) (reg s1')) as Hq.
  destruct (applyDirectives _ (reg s1')) as [[cfg2 [e2 |]] c2]; [discriminate |].
  destruct (NewSchema cfg2) as [sch [e3 |]] eqn:Hnew; [discriminate |].
  injection Hbuild as <-. simpl in Hq.
  rewrite Hops, addOperations_app in Hloop. subst sp.
  destruct (addOperations pre _ st) as [[cfgp [e |]] sp] eqn:Hpre; [discriminate |].
  simpl in Hloop. unfold bind in Hloop. rewrite addOperation_eq, Hk in Hloop.
  simpl in Hloop |- *.
  destruct (snd (fst (getObject (typeName op) (reg sp)))) as [e |]; [discriminate |].
  pose proof (addOperations_Query post
                (withQuery cfgp (fst (fst (getObject (typeName op) (reg sp)))))
                {| reg := snd (getObject (typeName op) (reg sp));
                   events := events sp ++ [CallGetObject (typeName op)] |} Hpost) as HQ.
  rewrite Hloop in HQ. simpl in HQ.
  exists cfg2, sch.
  exists (events s1' ++ [CallApplyDirectives (schemaDirectives cfg1 definition false)]).
  split; [exact (Make_explicit c ctx out _ sch Hres eq_refl) |].
  split; [exact Hres |].
  repeat split; [exact Hnew | congruence].
Qed.

End Theory.

(** ** Further properties of [buildSchemaFromAST] and [Make] *)

Section Further.

Context `{RT : Runtime} `{EN : !Engine} `{PK : Package} `{CO : !Collaborators}.
Local Open Scope list_scope.
Local Open Scope go_scope.

(** *** The loop over the declared operations *)

Lemma rootOperations_cons op ops :
  rootOperations (op :: ops) =
  match rootOf op with
  | Some _ => op :: rootOperations ops
  | None => rootOperations ops
  end.
Proof. unfold rootOperations, declaresRoot. simpl. destruct (rootOf op); reflexivity. Qed.

(** X1: an operation whose keyword is none of [query], [mutation] and
    [subscription] is passed over: the loop does what it does on the
    operations that declare a root, that operation left out. *)
Theorem addOperations_skips_unknown ops : forall cfg s,
  addOperations ops cfg s = addOperations (rootOperations ops) cfg s.
Proof.
  induction ops as [| op ops IH]; intros cfg s; [reflexivity |].
  rewrite rootOperations_cons. destruct (rootOf op) as [k |] eqn:Hk.
  - simpl. unfold bind.
    destruct (addOperation op cfg s) as [[cfg' [e |]] s']; [reflexivity | apply IH].
  - simpl. unfold bind. rewrite addOperation_eq, Hk. apply IH.
Qed.

(** X2: the lookups of the loop are those of the operations that declare a
    root, one each, in the order of the declaration: all of them when
    the loop ends without error, and the first ones, up to the one that
    fails, otherwise. *)
Theorem addOperations_lookups ops : forall cfg s,
  exists done rest,
    rootOperations ops = done ++ rest /\
    events (snd (addOperations ops cfg s)) = events s ++ map lookupOf done /\
    (snd (fst (addOperations ops cfg s)) = None -> rest = []) /\
    (forall e, snd (fst (addOperations ops cfg s)) = Some e ->
       exists before op, done = before ++ [op] /\
         snd (fst (getObject (typeName op)
                     (reg (snd (addOperations before cfg s))))) = Some e).
Proof.
  induction ops as [| op ops IH]; intros cfg s.
  - exists [], []. simpl. rewrite app_nil_r. repeat split; discriminate.
  - rewrite rootOperations_cons. simpl. unfold bind. rewrite addOperation_eq.
    destruct (rootOf op) as [k |] eqn:Hk; simpl; [| apply IH].
    destruct (snd (fst (getObject (typeName op) (reg s)))) as [e |] eqn:Hget; simpl.
    + exists [op], (rootOperations ops). repeat split; try discriminate.
      intros e' [= <-]. exists [], op. split; [reflexivity | exact Hget].
    + destruct (IH (setRoot k cfg (fst (fst (getObject (typeName op) (reg s)))))
                   {| reg := snd (getObject (typeName op) (reg s));
                      events := events s ++ [CallGetObject (typeName op)] |})
        as (done & rest & Hsplit & Hev & Hok & Herr).
      exists (op :: done), rest. rewrite Hsplit, Hev. simpl.
      rewrite <- app_assoc. repeat split; [exact Hok |].
      intros e He. destruct (Herr e He) as (before & op' & -> & Hfail).
      exists (op :: before), op'. split; [reflexivity |].
      simpl. unfold bind. rewrite addOperation_eq, Hk. simpl. rewrite Hget.
      exact Hfail.
Qed.

Lemma root_setRoot_other k k' cfg o : k <> k' -> root k (setRoot k' cfg o) = root k cfg.
Proof. destruct k, k'; simpl; congruence. Qed.

Lemma root_setRoot_same k cfg o : root k (setRoot k cfg o) = o.
Proof. destruct k; reflexivity. Qed.

(** Operations that do not declare root [k] leave it as it is. *)
Lemma addOperations_root_untouched k ops : forall cfg s,
  Forall (fun op => rootOf op <> Some k) ops ->
  root k (fst (fst (addOperations ops cfg s))) = root k cfg.
Proof.
  induction ops as [| op ops IH]; intros cfg s Hops; [reflexivity |].
  inversion Hops as [| ? ? Hop Hrest]; subst.
  simpl. unfold bind. rewrite addOperation_eq.
  destruct (rootOf op) as [k' |]; simpl; [| apply IH; assumption].
  destruct (snd (fst (getObject (typeName op) (reg s)))); simpl; [reflexivity |].
  rewrite IH by assumption. apply root_setRoot_other. congruence.
Qed.

(** X3: when a root is declared more than once, the last declaration sets
    it: after a loop that ends without error, root [k] is the object
    looked up for the last operation that declares [k]. *)
Theorem last_declaration_wins k pre op post cfg s cfg' s' :
  rootOf op = Some k ->
  Forall (fun o => rootOf o <> Some k) post ->
  addOperations (pre ++ op :: post) cfg s = ((cfg', None), s') ->
  root k cfg' =
  fst (fst (getObject (typeName op) (reg (snd (addOperations pre cfg s))))).
Proof.
  intros Hk Hpost Hloop. rewrite addOperations_app in Hloop.
  destruct (addOperations pre cfg s) as [[cfgp [e |]] sp]; [discriminate |].
  simpl in Hloop |- *. unfold bind in Hloop. rewrite addOperation_eq, Hk in Hloop.
  simpl in Hloop.
  destruct (snd (fst (getObject (typeName op) (reg sp)))) as [e |]; [discriminate |].
  pose proof (addOperations_root_untouched k post
                (setRoot k cfgp (fst (fst (getObject (typeName op) (reg sp)))))
                {| reg := snd (getObject (typeName op) (reg sp));
                   events := events sp ++ [CallGetObject (typeName op)] |} Hpost) as HR.
  rewrite Hloop in HR. simpl in HR. rewrite HR. apply root_setRoot_same.
Qed.

(** X4: a root that the schema declaration does not declare is nil in the
    config that [buildSchemaFromAST] hands to directive application:
    the function does not fall back on the default root names. *)
Theorem undeclared_root_is_nil k definition flag s :
  Forall (fun op => rootOf op <> Some k) (ast.OperationTypes definition) ->
  exists new,
    events (snd (buildSchemaFromAST definition flag s)) = events s ++ new /\
    Forall (appliesWithout k) new.
Proof.
  intros Hops. rewrite buildSchemaFromAST_eq.
  destruct (only_addOperations isLookup (ast.OperationTypes definition)
              (fun _ => I) (schemaConfigOf (reg s)) s) as [n1 [E1 F1]].
  pose proof (addOperations_root_untouched k (ast.OperationTypes definition)
                (schemaConfigOf (reg s)) s Hops) as HR.
  assert (F1' : Forall (appliesWithout k) n1).
  { eapply Forall_impl; [| exact F1]. intros [] He; simpl in *; tauto. }
  assert (Hnil : root k (schemaConfigOf (reg s)) = None) by (destruct k; reflexivity).
  destruct (addOperations _ _ s) as [[cfg1 [e1 |]] s1]; simpl in *; [eauto |].
  assert (Forall (appliesWithout k)
            (n1 ++ [CallApplyDirectives (schemaDirectives cfg1 definition flag)])).
  { apply Forall_app. split; [exact F1' |]. repeat constructor. simpl. congruence. }
  destruct (applyDirectives _ (reg s1)) as [[cfg2 [e2 |]] c2]; simpl.
  - exists (n1 ++ [CallApplyDirectives (schemaDirectives cfg1 definition flag)]).
    rewrite E1, app_assoc. split; [reflexivity | assumption].
  - destruct (NewSchema cfg2) as [sch [e3 |]]; simpl;
      exists ((n1 ++ [CallApplyDirectives (schemaDirectives cfg1 definition flag)])
              ++ [CallNewSchema cfg2]);
      rewrite E1, !app_assoc;
      (split; [reflexivity | apply Forall_app; split; [assumption | repeat constructor]]).
Qed.

(** *** What [buildSchemaFromAST] writes *)

Section Frame.

Variables (F : Type) (f : registry -> F).
Hypothesis f_schema : forall c sch, f (set_schema c sch) = f c.
Hypothesis f_getObject : forall name c, f (snd (getObject name c)) = f c.
Hypothesis f_applyDirectives : forall p c, f (snd (applyDirectives p c)) = f c.

Lemma addOperations_frame ops : forall cfg s,
  f (reg (snd (addOperations ops cfg s))) = f (reg s).
Proof.
  induction ops as [| op ops IH]; intros cfg s; [reflexivity |].
  simpl. unfold bind. rewrite addOperation_eq.
  destruct (rootOf op) as [k |]; simpl; [| apply IH].
  destruct (snd (fst (getObject (typeName op) (reg s)))); simpl.
  - apply f_getObject.
  - rewrite IH. simpl. apply f_getObject.
Qed.

Lemma buildSchemaFromAST_keeps definition flag s :
  f (reg (snd (buildSchemaFromAST definition flag s))) = f (reg s).
Proof.
  rewrite buildSchemaFromAST_eq.
  pose proof (addOperations_frame (ast.OperationTypes definition)
                (schemaConfigOf (reg s)) s) as Hloop.
  destruct (addOperations _ _ s) as [[cfg1 [e1 |]] s1]; simpl in *; [exact Hloop |].
  pose proof (f_applyDirectives (schemaDirectives cfg1 definition flag) (reg s1)) as Hd.
  destruct (applyDirectives _ (reg s1)) as [[cfg2 [e2 |]] c2]; simpl in *;
    [congruence |].
  destruct (NewSchema cfg2) as [sch [e3 |]]; simpl; [| rewrite f_schema]; congruence.
Qed.

Hypothesis f_resolveDefinition : forall d c, f (snd (resolveDefinition d c)) = f c.

Lemma resolveTypeSystem_frame defs : forall s,
  f (reg (snd (resolveTypeSystem defs s))) = f (reg s).
Proof.
  induction defs as [| [d | d] defs IH]; intros s; simpl; [reflexivity | apply IH |].
  unfold bind, method. pose proof (f_resolveDefinition d (reg s)) as Hd.
  destruct (resolveDefinition d (reg s)) as [[e |] c]; simpl in *; [exact Hd |].
  rewrite IH. exact Hd.
Qed.

Lemma resolveSchema_frame defs : forall s,
  f (reg (snd (resolveSchema defs s))) = f (reg s).
Proof.
  induction defs as [| [d | d] defs IH]; intros s; simpl; [reflexivity | | apply IH].
  unfold bind. pose proof (buildSchemaFromAST_keeps d false s) as Hb.
  destruct (buildSchemaFromAST d false s) as [[e |] s']; simpl in *; [exact Hb |].
  rewrite IH. exact Hb.
Qed.

Lemma resolveDefinitions_frame s : f (reg (snd (resolveDefinitions s))) = f (reg s).
Proof.
  unfold resolveDefinitions, bind, getRegistry.
  pose proof (resolveTypeSystem_frame (ast.Definitions (document (reg s))) s) as Ht.
  destruct (resolveTypeSystem _ s) as [[e |] s']; simpl in *; [exact Ht |].
  rewrite resolveSchema_frame. exact Ht.
Qed.

End Frame.

(** X5: [buildSchemaFromAST] itself writes nothing in the registry but
    the [schema] field: whatever is read from the registry without
    reading that field, and is left alone by lookups and by directive
    application, is after the call what it was before, whether the call
    fails or succeeds. *)
Theorem buildSchemaFromAST_frame (F : Type) (f : registry -> F) :
  (forall c sch, f (set_schema c sch) = f c) ->
  (forall name c, f (snd (getObject name c)) = f c) ->
  (forall p c, f (snd (applyDirectives p c)) = f c) ->
  forall definition flag s,
    f (reg (snd (buildSchemaFromAST definition flag s))) = f (reg s).
Proof. exact (buildSchemaFromAST_keeps F f). Qed.

(** *** The arrays of the config *)

(** C7: the config given to final schema construction holds the
    registry's whole type array and directive array, in both paths.  In
    the inferred path [Make] calls [graphql.NewSchema] on a config whose
    arrays are those of the registry as the root lookups leave it, which
    is the registry at that call.  In the explicit path
    [buildSchemaFromAST], once lookups and directive application have
    succeeded, calls [graphql.NewSchema] on a config whose arrays are
    those of the registry at that call: so it is when root lookups and
    directive application leave the registry's two arrays alone and
    directive application leaves the two arrays of the config alone. *)
Theorem schemaConfig_carries_registry :
  (forall c ctx out s1,
     resolved c ctx out = Some s1 -> schema (reg s1) = None ->
     snd (fst (getObject DefaultRootQueryName (reg s1))) = None ->
     exists cfg tail,
       snd (Make c ctx out) =
         events s1 ++
         [CallGetObject DefaultRootQueryName; CallGetObject DefaultRootMutationName;
          CallGetObject DefaultRootSubscriptionName; CallNewSchema cfg] ++ tail /\
       Forall (fun e => forall cfg', e <> CallNewSchema cfg') tail /\
       Types cfg = typeArray (afterSubscription (reg s1)) /\
       Directives cfg = directiveArray (afterSubscription (reg s1)) /\
       graphql.Extensions cfg = Extensions_ c) /\
  ((forall p c, Types (fst (fst (applyDirectives p c))) = Types (config p) /\
                Directives (fst (fst (applyDirectives p c))) = Directives (config p)) ->
   (forall name c, typeArray (snd (getObject name c)) = typeArray c /\
                   directiveArray (snd (getObject name c)) = directiveArray c) ->
   (forall p c, typeArray (snd (applyDirectives p c)) = typeArray c /\
                directiveArray (snd (applyDirectives p c)) = directiveArray c) ->
   forall definition flag s cfg1 s1 cfg2 c2,
     addOperations (ast.OperationTypes definition) (schemaConfigOf (reg s)) s =
       ((cfg1, None), s1) ->
     applyDirectives (schemaDirectives cfg1 definition flag) (reg s1) =
       ((cfg2, None), c2) ->
     events (snd (buildSchemaFromAST definition flag s)) =
       events s1 ++ [CallApplyDirectives (schemaDirectives cfg1 definition flag);
                     CallNewSchema cfg2] /\
     Types cfg2 = typeArray c2 /\ Directives cfg2 = directiveArray c2).
Proof.
  split.
  - intros c ctx out s1 Hres Hnone Hquery.
    rewrite (Make_inferred c ctx out s1 Hres Hnone), Hquery. simpl.
    exists (inferredConfig c (reg s1)).
    exists (match snd (NewSchema (inferredConfig c (reg s1))) with
            | Some _ => [Println (dump (reg s1))]
            | None => []
            end).
    repeat split.
    destruct (snd (NewSchema _)); repeat constructor. discriminate.
  - intros Hcfg Hget Hdir definition flag s cfg1 s1 cfg2 c2 Hloop Happly.
    split.
    + rewrite buildSchemaFromAST_eq, Hloop. simpl. rewrite Happly.
      destruct (NewSchema cfg2) as [sch [e |]]; simpl; rewrite <- app_assoc;
        reflexivity.
    + destruct (Hcfg (schemaDirectives cfg1 definition flag) (reg s1)) as [T2 D2].
      destruct (Hdir (schemaDirectives cfg1 definition flag) (reg s1)) as [T3 D3].
      rewrite Happly in T2, D2, T3, D3. simpl in T2, D2, T3, D3.
      destruct (addOperations_fields (ast.OperationTypes definition)
                  (schemaConfigOf (reg s)) s) as (T1 & D1 & _).
      pose proof (addOperations_frame _ typeArray (fun n c => proj1 (Hget n c))
                    (ast.OperationTypes definition) (schemaConfigOf (reg s)) s) as T0.
      pose proof (addOperations_frame _ directiveArray (fun n c => proj2 (Hget n c))
                    (ast.OperationTypes definition) (schemaConfigOf (reg s)) s) as D0.
      rewrite Hloop in T1, D1, T0, D0. simpl in T1, D1, T0, D0.
      split; congruence.
Qed.

(** *** Failures after the lookups *)

(** X6: once every lookup has succeeded, a failure of directive application
    ends [buildSchemaFromAST] with that error before any schema is
    built, and a failure of [graphql.NewSchema] ends it with that error;
    in both cases the registry is left as directive application left
    it. *)
Theorem buildSchemaFromAST_later_failures definition flag s cfg1 s1 :
  addOperations (ast.OperationTypes definition) (schemaConfigOf (reg s)) s =
    ((cfg1, None), s1) ->
  let p := schemaDirectives cfg1 definition flag in
  (forall cfg2 e c2,
     applyDirectives p (reg s1) = ((cfg2, Some e), c2) ->
     buildSchemaFromAST definition flag s =
       (Some e, {| reg := c2; events := events s1 ++ [CallApplyDirectives p] |})) /\
  (forall cfg2 c2 sch e,
     applyDirectives p (reg s1) = ((cfg2, None), c2) ->
     NewSchema cfg2 = (sch, Some e) ->
     buildSchemaFromAST definition flag s =
       (Some e, {| reg := c2;
                   events := events s1 ++ [CallApplyDirectives p; CallNewSchema cfg2] |})).
Proof.
  intros Hloop p. split.
  - intros cfg2 e c2 Hd. rewrite buildSchemaFromAST_eq, Hloop. simpl.
    fold p. rewrite Hd. reflexivity.
  - intros cfg2 c2 sch e Hd Hnew. rewrite buildSchemaFromAST_eq, Hloop. simpl.
    fold p. rewrite Hd, Hnew, <- app_assoc. reflexivity.
Qed.

(** *** [Make] *)

(** X7: when [Make] returns an error, the schema it returns with it is
    [graphql.Schema{}], and it has printed nothing. *)
Theorem Make_error_is_bare c ctx out sch e evs :
  Make c ctx out = ((sch, Some e), evs) ->
  sch = zeroSchema /\ printed evs = printed out.
Proof.
  intros HMake. destruct (resolved c ctx out) as [s1 |] eqn:Hres.
  - destruct (resolved_effects silent c ctx out s1 (fun _ => I) (fun _ => I)
                (fun _ _ => I) Hres) as [n1 [E1 F1]].
    destruct (schema (reg s1)) as [sch' |] eqn:Hsch.
    + rewrite (Make_explicit c ctx out s1 sch' Hres Hsch) in HMake. discriminate.
    + rewrite (Make_inferred c ctx out s1 Hres Hsch) in HMake.
      destruct (snd (fst (getObject DefaultRootQueryName (reg s1))));
        [| discriminate].
      injection HMake as <- _ <-. split; [reflexivity |].
      rewrite E1, !printed_app, (printed_silent n1 F1). simpl.
      rewrite !app_nil_r. reflexivity.
  - destruct (Make_unresolved silent c ctx out (fun _ => I) (fun _ => I)
                (fun _ _ => I) Hres) as (e' & new & E & F).
    rewrite E in HMake. injection HMake as <- _ <-. split; [reflexivity |].
    rewrite printed_app, (printed_silent new F), app_nil_r. reflexivity.
Qed.

(** X8: the line that [Make] prints when the inferred schema is refused is
    the dependency map of line 53, computed on the registry as
    [newRegistry] returned it, before any definition was resolved: so it
    is when resolution, lookups and directive application leave the
    [dependencyMap] field alone. *)
Theorem dump_is_of_new_registry c ctx out doc r0 s1 :
  ConcatenateTypeDefs c = (doc, None) ->
  newRegistry ctx (Resolvers c) (SchemaDirectives c) (Extensions_ c) doc = (r0, None) ->
  (forall name r, dependencyMap (snd (getObject name r)) = dependencyMap r) ->
  (forall p r, dependencyMap (snd (applyDirectives p r)) = dependencyMap r) ->
  (forall d r, dependencyMap (snd (resolveDefinition d r)) = dependencyMap r) ->
  resolved c ctx out = Some s1 -> schema (reg s1) = None ->
  snd (fst (getObject DefaultRootQueryName (reg s1))) = None ->
  snd (NewSchema (inferredConfig c (reg s1))) <> None ->
  printed (snd (Make c ctx out)) =
  printed out ++ [fst (MarshalIndent (IdentifyDependencies r0) "" "  ")].
Proof.
  intros Hdoc Hnew Hget Hdir Hdef Hres Hsch Hquery Hrefused.
  assert (Hmap : dependencyMap (reg s1) = IdentifyDependencies r0).
  { unfold resolved, registryOf in Hres. rewrite Hdoc, Hnew in Hres.
    pose proof (resolveDefinitions_frame _ dependencyMap (fun _ _ => eq_refl)
                  Hget Hdir Hdef
                  {| reg := set_dependencyMap r0 (IdentifyDependencies r0);
                     events := out |}) as Hf.
    destruct (resolveDefinitions _) as [[e |] s]; [discriminate |].
    injection Hres as ->. exact Hf. }
  destruct (resolved_effects silent c ctx out s1 (fun _ => I) (fun _ => I)
              (fun _ _ => I) Hres) as [n1 [E1 F1]].
  rewrite (Make_inferred c ctx out s1 Hres Hsch), Hquery. simpl.
  destruct (snd (NewSchema (inferredConfig c (reg s1)))); [| contradiction].
  rewrite E1, !printed_app, (printed_silent n1 F1), app_nil_r. simpl.
  unfold dump, afterSubscription, afterMutation, afterQuery.
  rewrite !Hget, Hmap. reflexivity.
Qed.

(** X9: [Make] reads its configuration and its context through
    [ConcatenateTypeDefs], [newRegistry] and the [Extensions] field
    only: two calls on which these agree return the same schema and
    error and perform the same effects. *)
Theorem Make_reads_config c c' ctx ctx' out :
  ConcatenateTypeDefs c = ConcatenateTypeDefs c' ->
  Extensions_ c = Extensions_ c' ->
  (forall doc,
     newRegistry ctx (Resolvers c) (SchemaDirectives c) (Extensions_ c) doc =
     newRegistry ctx' (Resolvers c') (SchemaDirectives c') (Extensions_ c') doc) ->
  Make c ctx out = Make c' ctx' out.
Proof.
  intros Hdoc Hext Hnew. unfold Make. rewrite Hdoc.
  destruct (ConcatenateTypeDefs c') as [doc [e |]]; [reflexivity |].
  rewrite Hnew. destruct (newRegistry _ _ _ _ doc) as [r [e |]]; [reflexivity |].
  rewrite !assemble_eq. unfold inferredConfig. rewrite Hext. reflexivity.
Qed.

End Further.

(** ** The properties on the concrete world *)

Import Sample.
Local Open Scope list_scope.

(** The collaborators of the concrete world meet what the properties
    take for granted about lookups and directive application. *)
Lemma lookup_keeps_schema name c : schema (snd (getObject name c)) = schema c.
Proof. simpl. unfold lookup. destruct (known name (internals c)); reflexivity. Qed.

Lemma lookup_error_no_object name r e :
  snd (fst (getObject name r)) = Some e -> fst (fst (getObject name r)) = None.
Proof. simpl. unfold lookup. destruct (known name (internals r)); simpl; congruence. Qed.

Lemma decorate_keeps_registry p c : snd (applyDirectives p c) = c.
Proof. simpl. unfold decorate. destruct (forallb _ _); reflexivity. Qed.

Lemma decorate_keeps_config p c : fst (fst (applyDirectives p c)) = config p.
Proof. simpl. unfold decorate. destruct (forallb _ _); reflexivity. Qed.

(** C1 (the code departs from it): on type definitions without a schema
    declaration whose [Item] type breaks the interface it implements,
    [graphql.NewSchema] refuses the inferred config, and [Make] prints
    the dependency map and returns the refused schema with a nil error. *)
Theorem Make_returns_refused_schema :
  snd (NewSchema brokenConfig) =
    Some "an object type does not provide a field its interface expects"%string /\
  Make brokenInterface tt [] =
    ((fst (NewSchema brokenConfig), None),
     [CallGetObject "Query"; CallGetObject "Mutation"; CallGetObject "Subscription";
      CallNewSchema brokenConfig; Println "Query,Item"]).
Proof. split; reflexivity. Qed.

(** C4 fails as stated: a schema declaration without a query root makes
    [graphql.NewSchema] fail inside [buildSchemaFromAST], which returns
    the error and prints nothing; so does [Make] on such a document. *)
Lemma no_dump_on_explicit_failure :
  ~ dumpsExactlyOnFailure
      (events (snd (buildSchemaFromAST mutationOnly false
                      {| reg := mutationRegistry; events := [] |}))) /\
  ~ dumpsExactlyOnFailure (snd (Make explicitNoQuery tt [])).
Proof.
  split; intros [_ H];
    destruct H as [line Hin];
    try (eexists; split; [simpl; do 2 right; left; reflexivity | discriminate]);
    simpl in Hin; repeat destruct Hin as [Hin | Hin]; try discriminate; contradiction.
Qed.

(** [buildSchemaFromAST] on [schema { mutation: Item, query: Missing,
    subscription: Item }] with only [Item] defined: the second lookup
    fails and the registry's schema stays unset. *)
Lemma buildSchemaFromAST_stores_last_witness :
  schema (reg (snd (buildSchemaFromAST missingRoot false
                      {| reg := itemRegistry; events := [] |}))) = None.
Proof.
  destruct (buildSchemaFromAST_stores_last missingRoot false
              {| reg := itemRegistry; events := [] |}
              lookup_keeps_schema
              (fun p c => f_equal schema (decorate_keeps_registry p c)))
    as [Herr _].
  exact (Herr "no definition found for type Missing"%string _ eq_refl).
Defined.

Lemma inferred_roots_witness :
  Make noQuery tt [] =
    ((zeroSchema, Some "no definition found for type Query"%string),
     [CallGetObject "Query"]) /\
  exists cfg tail,
    fst (Make plain tt []) = (fst (NewSchema cfg), None) /\
    snd (Make plain tt []) =
      [CallGetObject "Query"; CallGetObject "Mutation"; CallGetObject "Subscription";
       CallNewSchema cfg] ++ tail /\
    Mutation cfg = Some "Mutation"%string /\ Subscription cfg = None.
Proof.
  split.
  - pose proof (inferred_roots noQuery tt [] (atLine60 noQuery)) as H.
    destruct (H eq_refl eq_refl lookup_error_no_object) as [Hquery _].
    exact (Hquery _ eq_refl).
  - pose proof (inferred_roots plain tt [] (atLine60 plain)) as H.
    destruct (H eq_refl eq_refl lookup_error_no_object) as [_ Hrest].
    destruct (Hrest eq_refl) as (cfg & tail & E & _ & Hm & _ & _ & Hs).
    exists cfg, tail. rewrite E. repeat split.
    + exact Hm.
    + exact (Hs _ eq_refl).
Defined.

Lemma dump_on_inferred_failure_witness :
  printed (snd (Make brokenInterface tt [])) = ["Query,Item"%string] /\
  printed (snd (Make plain tt [])) = [].
Proof.
  destruct dump_on_inferred_failure as (_ & _ & Hdump). split.
  - exact (Hdump brokenInterface tt [] (atLine60 brokenInterface)
                 eq_refl eq_refl eq_refl).
  - exact (Hdump plain tt [] (atLine60 plain) eq_refl eq_refl eq_refl).
Defined.

Lemma explicit_schema_wins_witness :
  exists cfg sch,
    Make explicitFoo tt [] = ((sch, None), events (atLine60 explicitFoo)) /\
    NewSchema cfg = (sch, None) /\
    Query cfg = Some "Foo"%string.
Proof.
  pose proof (explicit_schema_wins explicitFoo tt [] (startOf explicitFoo) fooRoot
                (typesResolved explicitFoo) (atLine60 explicitFoo)
                [] (operation "query" "Foo") []) as H.
  destruct (H eq_refl eq_refl eq_refl eq_refl eq_refl (Forall_nil _) eq_refl
              (fun p r => f_equal Query (decorate_keeps_config p r)))
    as (cfg & sch & evs & HMake & _ & _ & _ & Hnew & _ & Hquery).
  exists cfg, sch. repeat split; assumption.
Defined.

(** ** The further properties on the concrete world *)

Import Cases.

Lemma lookup_keeps_registry name c : snd (getObject name c) = c.
Proof. simpl. unfold lookup. destruct (known name (internals c)); reflexivity. Qed.

Lemma declare_keeps_dependencyMap d c :
  dependencyMap (snd (resolveDefinition d c)) = dependencyMap c.
Proof. simpl. unfold declare. destruct (known (fst d) (internals c)); reflexivity. Qed.

Lemma addOperations_lookups_witness :
  events (snd (addOperations twice noRoots {| reg := abRegistry; events := [] |})) =
  [CallGetObject "A"; CallGetObject "A"; CallGetObject "B"].
Proof.
  destruct (addOperations_lookups twice noRoots {| reg := abRegistry; events := [] |})
    as (done & rest & Hsplit & Hev & Hok & _).
  rewrite (Hok eq_refl), app_nil_r in Hsplit. subst done. exact Hev.
Defined.

Lemma last_declaration_wins_witness :
  Query (fst (fst (addOperations twice noRoots {| reg := abRegistry; events := [] |}))) =
  Some "B"%string.
Proof.
  pose proof (last_declaration_wins QueryRoot
                [operation "query" "A"; operation "mutation" "A"]
                (operation "query" "B") [] noRoots
                {| reg := abRegistry; events := [] |}
                (fst (fst (addOperations twice noRoots
                             {| reg := abRegistry; events := [] |})))
                (snd (addOperations twice noRoots
                        {| reg := abRegistry; events := [] |}))) as H.
  exact (H eq_refl (Forall_nil _) eq_refl).
Defined.

Lemma undeclared_root_is_nil_witness :
  Forall (appliesWithout QueryRoot)
    (events (snd (buildSchemaFromAST mutationOnly false
                    {| reg := mutationRegistry; events := [] |}))).
Proof.
  assert (Hops : Forall (fun op => rootOf op <> Some QueryRoot)
                   (ast.OperationTypes mutationOnly))
    by (repeat constructor; discriminate).
  destruct (undeclared_root_is_nil QueryRoot mutationOnly false
              {| reg := mutationRegistry; events := [] |} Hops) as (new & E & F).
  exact (eq_ind_r (Forall (appliesWithout QueryRoot)) F E).
Defined.

Lemma buildSchemaFromAST_frame_witness :
  internals (reg (snd (buildSchemaFromAST twiceDeclared false
                         {| reg := abRegistry; events := [] |}))) =
  [("A", true); ("B", true)].
Proof.
  exact (buildSchemaFromAST_frame _ internals
           (fun _ _ => eq_refl)
           (fun name c => f_equal internals (lookup_keeps_registry name c))
           (fun p c => f_equal internals (decorate_keeps_registry p c))
           twiceDeclared false {| reg := abRegistry; events := [] |}).
Defined.

Lemma buildSchemaFromAST_later_failures_witness :
  fst (buildSchemaFromAST guarded false {| reg := itemRegistry; events := [] |}) =
    Some "unknown directive"%string /\
  fst (buildSchemaFromAST mutationOnly false
         {| reg := mutationRegistry; events := [] |}) =
    Some "Schema query must be Object Type but got: nil."%string.
Proof.
  split.
  - pose proof (buildSchemaFromAST_later_failures guarded false
                  {| reg := itemRegistry; events := [] |}) as H.
    destruct (H _ _ eq_refl) as [Hdir _].
    rewrite (Hdir _ _ _ eq_refl). reflexivity.
  - pose proof (buildSchemaFromAST_later_failures mutationOnly false
                  {| reg := mutationRegistry; events := [] |}) as H.
    destruct (H _ _ eq_refl) as [_ Hnew].
    rewrite (Hnew _ _ _ _ eq_refl eq_refl). reflexivity.
Defined.

Lemma Make_error_is_bare_witness :
  printed (snd (Make noQuery tt [])) = [] /\
  fst (fst (Make noQuery tt [])) = zeroSchema.
Proof.
  pose proof (Make_error_is_bare noQuery tt []) as H.
  destruct (H _ _ _ eq_refl) as [Hzero Hsilent].
  split; [exact Hsilent | exact Hzero].
Defined.

Lemma dump_is_of_new_registry_witness :
  printed (snd (Make brokenInterface tt [])) = ["Query,Item"%string].
Proof.
  pose proof (dump_is_of_new_registry brokenInterface tt []) as H.
  refine (H _ _ (atLine60 brokenInterface) eq_refl eq_refl
            (fun name r => f_equal dependencyMap (lookup_keeps_registry name r))
            (fun p r => f_equal dependencyMap (decorate_keeps_registry p r))
            declare_keeps_dependencyMap eq_refl eq_refl eq_refl _).
  discriminate.
Defined.

Lemma Make_reads_config_witness :
  Make plainWithVisitors tt [] = Make plain tt [].
Proof.
  pose proof (Make_reads_config plainWithVisitors plain tt tt []) as H.
  exact (H eq_refl eq_refl (fun _ => eq_refl)).
Defined.

(** [buildSchemaFromAST] on [schema { query: A, mutation: A, query: B }]
    with [A] and [B] defined sets the query root to [A] at the first
    operation and stores the schema built with query root [B]; on
    [schema { mutation: Item, query: Missing, subscription: Item }] with
    only [Item] defined it stops at the second lookup. *)
Lemma buildSchemaFromAST_steps_witness :
  Query (fst (fst (addOperations [operation "query" "A"] (schemaConfigOf abRegistry)
                     {| reg := abRegistry; events := [] |}))) = Some "A"%string /\
  buildSchemaFromAST missingRoot false {| reg := itemRegistry; events := [] |} =
    (Some "no definition found for type Missing"%string,
     {| reg := itemRegistry;
        events := [CallGetObject "Item"; CallGetObject "Missing"] |}) /\
  schema (reg (snd (buildSchemaFromAST twiceDeclared false
                      {| reg := abRegistry; events := [] |}))) =
    Some {| queryRoot := Some "B"%string; mutationRoot := Some "A"%string;
            subscriptionRoot := None; typeNames := ["A"%string; "B"%string] |}.
Proof.
  repeat apply conj.
  - destruct (buildSchemaFromAST_steps twiceDeclared false
                {| reg := abRegistry; events := [] |}) as (Hroot & _ & _).
    destruct (Hroot [] (operation "query" "A") QueryRoot _ _ eq_refl eq_refl eq_refl)
      as (_ & Hq & _).
    exact Hq.
  - destruct (buildSchemaFromAST_steps missingRoot false
                {| reg := itemRegistry; events := [] |}) as (_ & Habort & _).
    exact (Habort [operation "mutation" "Item"] (operation "query" "Missing")
                  [operation "subscription" "Item"] QueryRoot _ _ _
                  eq_refl eq_refl eq_refl eq_refl).
  - destruct (buildSchemaFromAST_steps twiceDeclared false
                {| reg := abRegistry; events := [] |}) as (_ & _ & Hstore).
    destruct (Hstore _ _ _ _ _ eq_refl eq_refl eq_refl) as (_ & Hsch & _).
    exact Hsch.
Defined.

(** C6 fails as stated: called with [true], [buildSchemaFromAST] applies
    the schema directives with thunks allowed. *)
Lemma schema_directives_with_thunks :
  ~ Forall (thunksAre false)
      (events (snd (buildSchemaFromAST twiceDeclared true
                      {| reg := abRegistry; events := [] |}))).
Proof.
  intros H. cbv in H.
  do 3 apply Forall_inv_tail in H. apply Forall_inv in H. discriminate.
Defined.

(** With [false], on [schema @auth { query: Item }]: the directive is
    applied with thunks disallowed, fails, and no schema is built. *)
Lemma schema_directives_get_the_flag_witness :
  exists p,
    events (snd (buildSchemaFromAST guarded false
                   {| reg := itemRegistry; events := [] |})) =
      [CallGetObject "Item"; CallApplyDirectives p] /\
    allowThunks p = false /\
    fst (buildSchemaFromAST guarded false {| reg := itemRegistry; events := [] |}) =
      Some "unknown directive"%string.
Proof.
  destruct (schema_directives_get_the_flag guarded false
              {| reg := itemRegistry; events := [] |}) as [_ Hcall].
  destruct (Hcall _ _ eq_refl) as (p & tail & Hev & Hflag & _ & _ & _ & _ & Hfail).
  assert (Herr : snd (fst (applyDirectives p (reg {| reg := itemRegistry;
                                                     events := [CallGetObject "Item"] |})))
                 = Some "unknown directive"%string).
  { simpl in Hev. injection Hev as Hp _. subst p. reflexivity. }
  destruct (Hfail _ Herr) as [Hres Htail]. subst tail.
  exists p. repeat apply conj; [exact Hev | exact Hflag | exact Hres].
Defined.

Lemma schemaConfig_carries_registry_witness :
  (exists cfg, In (CallNewSchema cfg) (snd (Make plain tt [])) /\
               Types cfg = [("Query", true); ("Mutation", true)]) /\
  (exists cfg, In (CallNewSchema cfg)
                 (events (snd (buildSchemaFromAST twiceDeclared false
                                 {| reg := abRegistry; events := [] |}))) /\
               Types cfg = [("A", true); ("B", true)]).
Proof.
  destruct schemaConfig_carries_registry as [Hinferred Hexplicit]. split.
  - destruct (Hinferred plain tt [] (atLine60 plain) eq_refl eq_refl eq_refl)
      as (cfg & tail & E & _ & T & _).
    exists cfg. split; [| exact T].
    rewrite E. simpl. do 3 right. left. reflexivity.
  - pose proof (Hexplicit
                  (fun p c => conj (f_equal Types (decorate_keeps_config p c))
                                   (f_equal Directives (decorate_keeps_config p c)))
                  (fun name c => conj (f_equal typeArray (lookup_keeps_registry name c))
                                      (f_equal directiveArray
                                               (lookup_keeps_registry name c)))
                  (fun p c => conj (f_equal typeArray (decorate_keeps_registry p c))
                                   (f_equal directiveArray
                                            (decorate_keeps_registry p c)))
                  twiceDeclared false {| reg := abRegistry; events := [] |}) as H.
    destruct (H _ _ _ _ eq_refl eq_refl) as (E & T & _).
    eexists. split; [rewrite E; simpl; do 4 right; left; reflexivity | exact T].
Defined.
